(** * tabnews-cli: the content client, the text pagination and the view
      controller of [tabnews_cli.py], with the properties of its specification.

    The program is Python.  Its values are embedded as follows.

    - [str] is [string]; one [ascii] stands for one character, so the model
      covers texts whose characters have code points below 256.  [len] is
      [String.length].  The two characters of the program's own literals that
      lie outside that range (the arrow of the selected feed entry and the
      box-drawing dash of the separator) are kept as their UTF-8 bytes; the
      program never measures the strings that hold them.
    - [int] is [Z].
    - a decoded JSON document is a [json] value; a [dict] is the association
      list of its items in insertion order (keys are distinct).  JSON numbers
      are integers.
    - a call that can raise returns a [pyres]: [Ok v] or [Raise e].
    - [textwrap.fill] is Python's standard library (CPython 3.11,
      [Lib/textwrap.py]); the part reached with the default options is embedded
      in [Module textwrap]. *)

From Stdlib Require Import ZArith List Bool Ascii String Lia.
From Stdlib Require Import Numbers.DecimalString.
Import ListNotations.

Open Scope string_scope.
Open Scope Z_scope.

(** ** Characters and strings *)

Definition ord (c : ascii) : Z := Z.of_N (N_of_ascii c).

Definition chr_tab : ascii := "009"%char.
Definition chr_nl : ascii := "010"%char.
Definition chr_cr : ascii := "013"%char.
Definition chr_space : ascii := " "%char.
Definition chr_hyphen : ascii := "-"%char.

Definition len (s : string) : Z := Z.of_nat (String.length s).

(** [str.isspace] on one character. *)
Definition py_isspace (c : ascii) : bool :=
  let n := ord c in
  ((9 <=? n) && (n <=? 13)) || ((28 <=? n) && (n <=? 32))
  || (n =? 133) || (n =? 160).

(** [s.strip() == ''] *)
Fixpoint strip_is_empty (s : string) : bool :=
  match s with
  | EmptyString => true
  | String c s' => py_isspace c && strip_is_empty s'
  end.

(** [str(n)] for an [int]. *)
Definition str_of_int (n : Z) : string := NilEmpty.string_of_int (Z.to_int n).

(** [sep.join(l)] *)
Definition join (sep : string) (l : list string) : string := String.concat sep l.

(** [s.split(sep)] for a separator of one character: the pieces between the
    occurrences of [sep]; there is always at least one piece. *)
Fixpoint split (sep : ascii) (s : string) : list string :=
  match s with
  | EmptyString => [EmptyString]
  | String c s' =>
      if Ascii.eqb c sep then EmptyString :: split sep s'
      else match split sep s' with
           | piece :: rest => String c piece :: rest
           | [] => [String c EmptyString]
           end
  end.

Definition NL : string := String chr_nl EmptyString.

(** [s * n]: repetition; empty when [n <= 0]. *)
Definition str_repeat (s : string) (n : Z) : string :=
  String.concat "" (List.repeat s (Z.to_nat n)).

(** [s[:e]] and [s[e:]] with Python's reading of a negative bound. *)
Definition slice_bound (s : string) (e : Z) : nat :=
  if e <? 0 then Z.to_nat (len s + e) else Z.to_nat e.

Definition slice_to (s : string) (e : Z) : string :=
  substring 0 (slice_bound s e) s.

Definition slice_from (s : string) (e : Z) : string :=
  substring (slice_bound s e) (String.length s - slice_bound s e) s.

(** [needle in s] *)
Fixpoint contains (needle s : string) : bool :=
  prefix needle s ||
  match s with
  | EmptyString => false
  | String _ s' => contains needle s'
  end.

(** ** Results of calls that can raise *)

Inductive exn : Type :=
| Exception (msg : string)
| KeyError (key : string)
| TypeError (msg : string)
| AttributeError (msg : string)
| IndexError (msg : string)
| ValueError (msg : string)
| JSONDecodeError (msg : string)
| RequestException (msg : string).

Inductive pyres (A : Type) : Type :=
| Ok (a : A)
| Raise (e : exn).

Arguments Ok {A} a.
Arguments Raise {A} e.

Definition bind {A B : Type} (m : pyres A) (k : A -> pyres B) : pyres B :=
  match m with
  | Ok a => k a
  | Raise e => Raise e
  end.

Notation "x <- m ;; k" := (bind m (fun x => k))
  (at level 61, m at next level, right associativity).

(** ** [textwrap.fill] with the default options

    [TextWrapper(width=width)]: [expand_tabs], [replace_whitespace],
    [break_long_words], [drop_whitespace] and [break_on_hyphens] are true,
    [tabsize] is 8, both indents are empty, [fix_sentence_endings] is false
    and [max_lines] is [None]. *)
Module textwrap.

(** [_whitespace = '\t\n\x0b\x0c\r '] *)
Definition is_whitespace (c : ascii) : bool :=
  let n := ord c in ((9 <=? n) && (n <=? 13)) || (n =? 32).

(** The classes of [wordsep_re]: [\d], [\w], [letter = [^\d\W]] and
    [word_punct] ([\w] and the seven punctuation marks of the pattern), on
    code points below 256. *)
Definition re_digit (c : ascii) : bool :=
  let n := ord c in (48 <=? n) && (n <=? 57).

Definition re_word (c : ascii) : bool :=
  let n := ord c in
  re_digit c || ((65 <=? n) && (n <=? 90)) || (n =? 95)
  || ((97 <=? n) && (n <=? 122))
  || (n =? 170) || (n =? 178) || (n =? 179) || (n =? 181) || (n =? 185)
  || (n =? 186) || ((188 <=? n) && (n <=? 190))
  || ((192 <=? n) && (n <=? 214)) || ((216 <=? n) && (n <=? 246))
  || (248 <=? n).

Definition re_letter (c : ascii) : bool := re_word c && negb (re_digit c).

Definition re_word_punct (c : ascii) : bool :=
  let n := ord c in
  re_word c || (n =? 33) || (n =? 34) || (n =? 39) || (n =? 38)
  || (n =? 46) || (n =? 44) || (n =? 63).

Definition is_hyphen (c : ascii) : bool := Ascii.eqb c chr_hyphen.

(** [text.expandtabs(8)]: a tab advances to the next multiple of 8, the
    column restarts after a newline or a carriage return. *)
Fixpoint expandtabs_from (col : nat) (s : string) : string :=
  match s with
  | EmptyString => EmptyString
  | String c s' =>
      if Ascii.eqb c chr_tab then
        let incr := (8 - Nat.modulo col 8)%nat in
        (str_repeat " " (Z.of_nat incr) ++ expandtabs_from (col + incr) s')%string
      else if Ascii.eqb c chr_nl || Ascii.eqb c chr_cr then
        String c (expandtabs_from 0 s')
      else String c (expandtabs_from (S col) s')
  end.

Definition expandtabs (s : string) : string := expandtabs_from 0 s.

(** [text.translate(unicode_whitespace_trans)] *)
Fixpoint translate_whitespace (s : string) : string :=
  match s with
  | EmptyString => EmptyString
  | String c s' =>
      String (if is_whitespace c then chr_space else c) (translate_whitespace s')
  end.

Definition _munge_whitespace (text : string) : string :=
  translate_whitespace (expandtabs text).

(** *** [wordsep_re.split]

    Every match of [wordsep_re] starts where the previous one ended, so the
    chunks partition the text.  A chunk is one of: a run of whitespace; a run
    of two or more hyphens that follows a [word_punct] character and is
    followed by a [\w] character; or a word, which the lazy [nws+?] closes at
    the first position where one of its three endings holds.

    The scan below reads the text once.  [before] is the text already read,
    most recent character first (for the look-behinds), [rest] the text still
    to read (for the look-aheads), [cur] the characters of the open chunk,
    most recent first. *)

Inductive chunk_kind : Type := KSpace | KDashes | KWord.

(** [-{2,}\w] at the head of [l].  The first two hyphens are matched here,
    the rest of the run and the word character by [dashes_then_word]. *)
Fixpoint dashes_then_word (l : list ascii) : bool :=
  match l with
  | c :: l' => if is_hyphen c then dashes_then_word l' else re_word c
  | [] => false
  end.

Definition em_dash_ahead (l : list ascii) : bool :=
  match l with
  | c1 :: c2 :: l' => is_hyphen c1 && is_hyphen c2 && dashes_then_word l'
  | _ => false
  end.

(** [(?<=word_punct)] *)
Definition word_punct_behind (before : list ascii) : bool :=
  match before with
  | c :: _ => re_word_punct c
  | [] => false
  end.

(** [(?<=letter{2}-) | (?<=letter-letter-)], read just after the hyphen. *)
Definition hyphen_behind (before : list ascii) : bool :=
  match before with
  | h :: a :: b :: tl =>
      is_hyphen h && re_letter a &&
      (re_letter b ||
       (is_hyphen b && match tl with c :: _ => re_letter c | [] => false end))
  | _ => false
  end.

(** [(?= letter -? letter)] *)
Definition hyphen_ahead (rest : list ascii) : bool :=
  match rest with
  | a :: b :: tl =>
      re_letter a &&
      ((is_hyphen b && match tl with c :: _ => re_letter c | [] => false end)
       || re_letter b)
  | _ => false
  end.

(** [(?=whitespace|\Z)] *)
Definition word_end_ahead (rest : list ascii) : bool :=
  match rest with
  | c :: _ => is_whitespace c
  | [] => true
  end.

(** The alternative chosen at the start of a chunk whose first character
    is [c]; [before] does not hold [c] yet, [rest] starts with it. *)
Definition kind_at (before rest : list ascii) (c : ascii) : chunk_kind :=
  if is_whitespace c then KSpace
  else if word_punct_behind before && em_dash_ahead rest then KDashes
  else KWord.

(** Does the open chunk end after its most recent character?  [cur] and
    [before] hold that character already. *)
Definition chunk_ends (k : chunk_kind) (cur before rest : list ascii) : bool :=
  match k with
  | KSpace => match rest with c :: _ => negb (is_whitespace c) | [] => true end
  | KDashes => match rest with c :: _ => negb (is_hyphen c) | [] => true end
  | KWord =>
      (match cur with
       | _ :: _ :: _ => hyphen_behind before && hyphen_ahead rest
       | _ => false
       end)
      || word_end_ahead rest
      || (word_punct_behind before && em_dash_ahead rest)
  end.

Fixpoint scan (k : chunk_kind) (before cur rest : list ascii) : list string :=
  match rest with
  | [] => match cur with
          | [] => []
          | _ => [string_of_list_ascii (rev cur)]
          end
  | c :: rest' =>
      let k' := match cur with [] => kind_at before rest c | _ => k end in
      let cur' := c :: cur in
      let before' := c :: before in
      if chunk_ends k' cur' before' rest'
      then string_of_list_ascii (rev cur') :: scan k' before' [] rest'
      else scan k' before' cur' rest'
  end.

(** [_split]: the chunks of [wordsep_re.split(text)], empty strings removed
    (the scan produces none). *)
Definition _split (text : string) : list string :=
  scan KWord [] [] (list_ascii_of_string text).

Definition _split_chunks (text : string) : list string :=
  _split (_munge_whitespace text).

(** [chunk.rfind('-', 0, stop)]: the greatest index below [stop] that holds a
    hyphen, or -1. *)
Fixpoint rfind_hyphen_from (i : Z) (s : string) (stop : Z) : Z :=
  match s with
  | EmptyString => -1
  | String c s' =>
      if i <? stop then
        let later := rfind_hyphen_from (i + 1) s' stop in
        if 0 <=? later then later else if is_hyphen c then i else -1
      else -1
  end.

Definition rfind_hyphen (s : string) (stop : Z) : Z := rfind_hyphen_from 0 s stop.

(** [any(c != '-' for c in s)] *)
Fixpoint any_non_hyphen (s : string) : bool :=
  match s with
  | EmptyString => false
  | String c s' => negb (is_hyphen c) || any_non_hyphen s'
  end.

(** [_handle_long_word] with [break_long_words] and [break_on_hyphens] set.
    The stack [reversed_chunks] is a list whose head is its top.  The caller
    only calls it with a chunk on the stack. *)
Definition _handle_long_word (chunks cur_line : list string) (cur_len width : Z)
  : list string * list string :=
  let space_left := if width <? 1 then 1 else width - cur_len in
  match chunks with
  | chunk :: below =>
      let e :=
        if len chunk >? space_left then
          let hyphen := rfind_hyphen chunk space_left in
          if (hyphen >? 0) && any_non_hyphen (slice_to chunk hyphen)
          then hyphen + 1 else space_left
        else space_left in
      (slice_from chunk e :: below, (cur_line ++ [slice_to chunk e])%list)
  | [] => (chunks, cur_line)
  end.

(** The inner [while chunks:] loop: pop the chunks that still fit. *)
Fixpoint fit (width : Z) (cur_line : list string) (cur_len : Z)
  (chunks : list string) : list string * Z * list string :=
  match chunks with
  | c :: below =>
      if cur_len + len c <=? width
      then fit width (cur_line ++ [c])%list (cur_len + len c) below
      else (cur_line, cur_len, chunks)
  | [] => (cur_line, cur_len, [])
  end.

(** [if chunks[-1].strip() == '' and lines: del chunks[-1]] *)
Definition drop_leading (chunks lines : list string) : list string :=
  match chunks, lines with
  | c :: below, _ :: _ => if strip_is_empty c then below else chunks
  | _, _ => chunks
  end.

(** [if chunks and len(chunks[-1]) > width: self._handle_long_word(...)] *)
Definition long_word (chunks cur_line : list string) (cur_len width : Z)
  : list string * list string :=
  match chunks with
  | c :: _ =>
      if len c >? width
      then _handle_long_word chunks cur_line cur_len width
      else (chunks, cur_line)
  | [] => (chunks, cur_line)
  end.

(** [if cur_line and cur_line[-1].strip() == '': del cur_line[-1]] *)
Definition drop_trailing (cur_line : list string) : list string :=
  match rev cur_line with
  | c :: _ => if strip_is_empty c then removelast cur_line else cur_line
  | [] => cur_line
  end.

(** [if cur_line: lines.append(indent + ''.join(cur_line))] *)
Definition push_line (lines cur_line : list string) : list string :=
  match cur_line with
  | [] => lines
  | _ => (lines ++ [join "" cur_line])%list
  end.

(** One pass of the outer [while chunks:] loop, from a non-empty stack. *)
Definition wrap_step (width : Z) (chunks lines : list string)
  : list string * list string :=
  let '(cur_line, cur_len, chunks2) := fit width [] 0 (drop_leading chunks lines) in
  let '(chunks3, cur_line1) := long_word chunks2 cur_line cur_len width in
  (chunks3, push_line lines (drop_trailing cur_line1)).

(** The outer [while chunks:] loop.  Every pass removes a chunk or shortens
    one, so [chunks_size chunks] passes empty the stack: the loop has run to
    its end when the fuel is spent (see [wrap_loop_spec]). *)
Fixpoint wrap_loop (fuel : nat) (width : Z) (chunks lines : list string)
  : list string * list string :=
  match chunks, fuel with
  | [], _ => ([], lines)
  | _, O => (chunks, lines)
  | _, S fuel' =>
      let '(chunks', lines') := wrap_step width chunks lines in
      wrap_loop fuel' width chunks' lines'
  end.

Definition chunks_size (chunks : list string) : nat :=
  fold_right (fun c n => (S (String.length c) + n)%nat) 0%nat chunks.

Definition _wrap_chunks (width : Z) (chunks : list string) : pyres (list string) :=
  if width <=? 0 then
    Raise (ValueError ("invalid width " ++ str_of_int width ++ " (must be > 0)"))
  else Ok (snd (wrap_loop (chunks_size chunks) width chunks [])).

Definition wrap (text : string) (width : Z) : pyres (list string) :=
  _wrap_chunks width (_split_chunks text).

Definition fill (text : string) (width : Z) : pyres string :=
  lines <- wrap text width ;;
  Ok (join NL lines).

End textwrap.

(** ** Decoded JSON and the dynamic operations the program applies to it *)

#[warnings="-register-all"] Inductive json : Type :=
| JNull
| JBool (b : bool)
| JNum (n : Z)
| JStr (s : string)
| JArr (items : list json)
| JObj (items : list (string * json)).

Definition chr_quote : ascii := "039"%char.
Definition chr_dquote : ascii := "034"%char.
Definition chr_backslash : ascii := "092"%char.

Fixpoint has_char (c : ascii) (s : string) : bool :=
  match s with
  | EmptyString => false
  | String d s' => Ascii.eqb d c || has_char c s'
  end.

(** [str.isprintable] on one character. *)
Definition py_isprintable (c : ascii) : bool :=
  let n := ord c in
  (32 <=? n) && negb ((127 <=? n) && (n <=? 160)) && negb (n =? 173).

Definition hex_digit (n : Z) : string :=
  substring (Z.to_nat n) 1 "0123456789abcdef".

(** [repr] of a [str]. *)
Definition repr_char (q c : ascii) : string :=
  let n := ord c in
  if Ascii.eqb c q || Ascii.eqb c chr_backslash
  then String chr_backslash (String c EmptyString)
  else if n =? 9 then "\t"
  else if n =? 10 then "\n"
  else if n =? 13 then "\r"
  else if py_isprintable c then String c EmptyString
  else "\x" ++ hex_digit (n / 16) ++ hex_digit (n mod 16).

Fixpoint repr_chars (q : ascii) (s : string) : string :=
  match s with
  | EmptyString => EmptyString
  | String c s' => repr_char q c ++ repr_chars q s'
  end.

Definition repr_str (s : string) : string :=
  let q := if has_char chr_quote s && negb (has_char chr_dquote s)
           then chr_dquote else chr_quote in
  String q (repr_chars q s ++ String q EmptyString).

(** [repr(v)] *)
Fixpoint py_repr (v : json) : string :=
  match v with
  | JNull => "None"
  | JBool true => "True"
  | JBool false => "False"
  | JNum n => str_of_int n
  | JStr s => repr_str s
  | JArr items => "[" ++ join ", " (map py_repr items) ++ "]"
  | JObj items =>
      "{" ++ join ", " (map (fun kv => let '(k, x) := kv in
                                        repr_str k ++ ": " ++ py_repr x) items)
      ++ "}"
  end.

(** [str(v)], which is what an f-string field formats. *)
Definition py_str (v : json) : string :=
  match v with
  | JStr s => s
  | _ => py_repr v
  end.

Definition type_name (v : json) : string :=
  match v with
  | JNull => "NoneType"
  | JBool _ => "bool"
  | JNum _ => "int"
  | JStr _ => "str"
  | JArr _ => "list"
  | JObj _ => "dict"
  end.

(** [bool(v)] *)
Definition truthy (v : json) : bool :=
  match v with
  | JNull => false
  | JBool b => b
  | JNum n => negb (n =? 0)
  | JStr s => negb (String.eqb s EmptyString)
  | JArr items => match items with [] => false | _ => true end
  | JObj items => match items with [] => false | _ => true end
  end.

Fixpoint assoc (key : string) (items : list (string * json)) : option json :=
  match items with
  | [] => None
  | (k, x) :: items' => if String.eqb k key then Some x else assoc key items'
  end.

(** [v[key]] for a [str] key. *)
Definition subscript (v : json) (key : string) : pyres json :=
  match v with
  | JObj items =>
      match assoc key items with
      | Some x => Ok x
      | None => Raise (KeyError key)
      end
  | JStr _ => Raise (TypeError "string indices must be integers, not 'str'")
  | JArr _ => Raise (TypeError "list indices must be integers or slices, not str")
  | _ => Raise (TypeError ("'" ++ type_name v ++ "' object is not subscriptable"))
  end.

(** [v.get(key, default)] *)
Definition dict_get (v : json) (key : string) (default : json) : pyres json :=
  match v with
  | JObj items =>
      match assoc key items with
      | Some x => Ok x
      | None => Ok default
      end
  | _ => Raise (AttributeError ("'" ++ type_name v ++ "' object has no attribute 'get'"))
  end.

(** The values a [for] loop over [v] visits: the items of a list, the keys of
    a dict, the characters of a string. *)
Definition iterate (v : json) : pyres (list json) :=
  match v with
  | JArr items => Ok items
  | JObj items => Ok (map (fun kv => JStr (fst kv)) items)
  | JStr s => Ok (map (fun c => JStr (String c EmptyString)) (list_ascii_of_string s))
  | _ => Raise (TypeError ("'" ++ type_name v ++ "' object is not iterable"))
  end.

(** A value handed to [textwrap.fill] must be a [str]: the first thing done
    with it is [text.expandtabs]. *)
Definition as_text (v : json) : pyres string :=
  match v with
  | JStr s => Ok s
  | _ => Raise (AttributeError ("'" ++ type_name v ++ "' object has no attribute 'expandtabs'"))
  end.

(** [str(e)] *)
Definition str_exn (e : exn) : string :=
  match e with
  | KeyError key => repr_str key
  | Exception msg | TypeError msg | AttributeError msg | IndexError msg
  | ValueError msg | JSONDecodeError msg | RequestException msg => msg
  end.

(** [l[i]] on a list, negative indices counting from the end. *)
Definition py_index {A : Type} (l : list A) (i : Z) : pyres A :=
  let n := Z.of_nat (List.length l) in
  let j := if i <? 0 then i + n else i in
  if (0 <=? j) && (j <? n) then
    match nth_error l (Z.to_nat j) with
    | Some x => Ok x
    | None => Raise (IndexError "list index out of range")
    end
  else Raise (IndexError "list index out of range").

(** ** The content client ([class TabNewsAPI])

    [session.get(url, params)] is the transport: given the request it returns
    a response or raises.  A response carries its status code and what
    [response.json()] gives: the decoded body, or the decoder's exception. *)

Record response : Type := mk_response {
  status_code : Z;
  response_json : pyres json
}.

Record request : Type := mk_request {
  url : string;
  params : list (string * string)
}.

Definition transport : Type := request -> pyres response.

Definition BASE_URL : string := "https://www.tabnews.com.br/api/v1".

(** The four read operations share their last five lines. *)
Definition check_response (r : response) : pyres json :=
  if negb (status_code r =? 200) then
    error_data <- response_json r ;;
    error_message <- dict_get error_data "message" (JStr "Unknown error") ;;
    Raise (Exception ("API Error (" ++ str_of_int (status_code r) ++ "): "
                      ++ py_str error_message))
  else response_json r.

Definition get_contents (session : transport) (page per_page : Z)
  (strategy : string) : pyres json :=
  let url := BASE_URL ++ "/contents" in
  let params := [("page", str_of_int page); ("per_page", str_of_int per_page);
                 ("strategy", strategy)] in
  r <- session (mk_request url params) ;;
  check_response r.

Definition get_user_contents (session : transport) (username : string)
  (page per_page : Z) (strategy : string) : pyres json :=
  let url := BASE_URL ++ "/contents/" ++ username in
  let params := [("page", str_of_int page); ("per_page", str_of_int per_page);
                 ("strategy", strategy)] in
  r <- session (mk_request url params) ;;
  check_response r.

Definition get_content (session : transport) (username slug : json) : pyres json :=
  let url := BASE_URL ++ "/contents/" ++ py_str username ++ "/" ++ py_str slug in
  r <- session (mk_request url []) ;;
  check_response r.

Definition get_comments (session : transport) (username slug : json) : pyres json :=
  let url := BASE_URL ++ "/contents/" ++ py_str username ++ "/" ++ py_str slug
             ++ "/children" in
  r <- session (mk_request url []) ;;
  check_response r.

(** [login] is the one write call.  [session.post(url, json=data)] is the
    transport of POST requests.  The client object holds [token]: the value of
    the environment variable [TABNEWS_TOKEN] after [__init__] ([None] when it
    is not set), and what [login] stores there. *)

Record post_request : Type := mk_post_request {
  post_url : string;
  post_json : list (string * string)
}.

Definition post_transport : Type := post_request -> pyres response.

Record api : Type := mk_api { token : json }.

(** [TabNewsAPI.__init__], given what [os.getenv] returns. *)
Definition init_api (env_token : option string) : api :=
  mk_api match env_token with
         | Some t => JStr t
         | None => JNull
         end.

Definition login (session : post_transport) (self : api) (email password : string)
  : pyres (bool * api) :=
  let url := BASE_URL ++ "/sessions" in
  let data := [("email", email); ("password", password)] in
  r <- session (mk_post_request url data) ;;
  if status_code r =? 200 then
    body <- response_json r ;;
    t <- dict_get body "token" JNull ;;
    Ok (true, mk_api t)
  else Ok (false, self).

(** ** The view controller ([class TabNewsUI])

    [view_mode] only ever holds one of three string constants.  The three
    [FormattedTextControl] objects are represented by their [text].  The
    fields [content_scroll_position] and [comments] are never read after
    [__init__] and are left out.

    [contents] is what the last [update_feed] left there.  It is the decoded
    response, which the loop of [update_feed] has walked without an exception,
    or the empty list.  A response that is not a list survives that loop only
    when it is an empty string or an empty dict, which [len], truth and
    indexing cannot tell from the empty list; so [contents] is a list. *)

Inductive view : Type := Feed | Content | Comments.

Record ui : Type := mk_ui {
  current_page : Z;
  current_strategy : string;
  selected_index : Z;
  contents : list json;
  current_content : json;
  view_mode : view;
  terminal_width : Z;
  terminal_height : Z;
  content_pages : list string;
  current_content_page : Z;
  feed_text : string;
  content_text : string;
  comments_text : string
}.

Definition set_current_page (x : Z) (self : ui) : ui :=
  mk_ui x (current_strategy self) (selected_index self) (contents self)
    (current_content self) (view_mode self) (terminal_width self)
    (terminal_height self) (content_pages self) (current_content_page self)
    (feed_text self) (content_text self) (comments_text self).

Definition set_selected_index (x : Z) (self : ui) : ui :=
  mk_ui (current_page self) (current_strategy self) x (contents self)
    (current_content self) (view_mode self) (terminal_width self)
    (terminal_height self) (content_pages self) (current_content_page self)
    (feed_text self) (content_text self) (comments_text self).

Definition set_contents (x : list json) (self : ui) : ui :=
  mk_ui (current_page self) (current_strategy self) (selected_index self) x
    (current_content self) (view_mode self) (terminal_width self)
    (terminal_height self) (content_pages self) (current_content_page self)
    (feed_text self) (content_text self) (comments_text self).

Definition set_current_content (x : json) (self : ui) : ui :=
  mk_ui (current_page self) (current_strategy self) (selected_index self)
    (contents self) x (view_mode self) (terminal_width self)
    (terminal_height self) (content_pages self) (current_content_page self)
    (feed_text self) (content_text self) (comments_text self).

Definition set_view_mode (x : view) (self : ui) : ui :=
  mk_ui (current_page self) (current_strategy self) (selected_index self)
    (contents self) (current_content self) x (terminal_width self)
    (terminal_height self) (content_pages self) (current_content_page self)
    (feed_text self) (content_text self) (comments_text self).

Definition set_content_pages (x : list string) (self : ui) : ui :=
  mk_ui (current_page self) (current_strategy self) (selected_index self)
    (contents self) (current_content self) (view_mode self) (terminal_width self)
    (terminal_height self) x (current_content_page self)
    (feed_text self) (content_text self) (comments_text self).

Definition set_current_content_page (x : Z) (self : ui) : ui :=
  mk_ui (current_page self) (current_strategy self) (selected_index self)
    (contents self) (current_content self) (view_mode self) (terminal_width self)
    (terminal_height self) (content_pages self) x
    (feed_text self) (content_text self) (comments_text self).

Definition set_feed_text (x : string) (self : ui) : ui :=
  mk_ui (current_page self) (current_strategy self) (selected_index self)
    (contents self) (current_content self) (view_mode self) (terminal_width self)
    (terminal_height self) (content_pages self) (current_content_page self)
    x (content_text self) (comments_text self).

Definition set_content_text (x : string) (self : ui) : ui :=
  mk_ui (current_page self) (current_strategy self) (selected_index self)
    (contents self) (current_content self) (view_mode self) (terminal_width self)
    (terminal_height self) (content_pages self) (current_content_page self)
    (feed_text self) x (comments_text self).

Definition set_comments_text (x : string) (self : ui) : ui :=
  mk_ui (current_page self) (current_strategy self) (selected_index self)
    (contents self) (current_content self) (view_mode self) (terminal_width self)
    (terminal_height self) (content_pages self) (current_content_page self)
    (feed_text self) (content_text self) x.

(** [TabNewsUI.__init__] *)
Definition init_ui : ui :=
  mk_ui 1 "relevant" 0 [] JNull Feed 80 24 [] 0 "" "" "".

Definition wrap_text (text : string) (width : Z) : pyres string :=
  textwrap.fill text width.

(** The [for line in lines:] loop of [split_into_pages]. *)
Fixpoint pages_loop (height : Z) (lines pages current_page : list string)
  (current_height : Z) : list string * list string :=
  match lines with
  | [] => (pages, current_page)
  | line :: lines' =>
      if current_height >=? height
      then pages_loop height lines' (pages ++ [join NL current_page])%list
             [line] (0 + 1)
      else pages_loop height lines' pages (current_page ++ [line])%list
             (current_height + 1)
  end.

Definition split_into_pages (text : string) (width height : Z)
  : pyres (list string) :=
  wrapped_text <- wrap_text text width ;;
  let lines := split chr_nl wrapped_text in
  let '(pages, current_page) := pages_loop height lines [] [] 0 in
  Ok (match current_page with
      | [] => pages
      | _ => (pages ++ [join NL current_page])%list
      end).

Definition update_content_view (self : ui) : pyres ui :=
  match content_pages self with
  | [] => Ok self
  | _ =>
      page <- py_index (content_pages self) (current_content_page self) ;;
      Ok (set_comments_text "" (set_content_text page self))
  end.

(** The three lines one feed entry adds to [feed_text]; nothing is added
    when one of the look-ups or the wrapping raises. *)
Definition feed_entry (self : ui) (i : Z) (content : json) : pyres (list string) :=
  let prefix := if i =? selected_index self then "→ " else "  " in
  t <- subscript content "title" ;;
  t <- as_text t ;;
  title <- wrap_text t (terminal_width self - 4) ;;
  author <- subscript content "owner_username" ;;
  Ok [prefix ++ title; "    by " ++ py_str author; ""].

(** The [for i, content in enumerate(self.contents):] loop: the lines
    gathered, and the exception that stopped the loop, if any. *)
Fixpoint feed_entries (self : ui) (i : Z) (items : list json)
  (feed_text : list string) : list string * option exn :=
  match items with
  | [] => (feed_text, None)
  | content :: items' =>
      match feed_entry self i content with
      | Ok entry => feed_entries self (i + 1) items' (feed_text ++ entry)%list
      | Raise e => (feed_text, Some e)
      end
  end.

Definition update_feed (session : transport) (self : ui) : pyres ui :=
  let feed_text0 :=
    ["[page]Page " ++ str_of_int (current_page self) ++ "[/page]"; ""] in
  let '(feed_text1, outcome) :=
    match (v <- get_contents session (current_page self) 10 (current_strategy self) ;;
           iterate v) with
    | Ok items =>
        match feed_entries self 0 items feed_text0 with
        | (lines, None) => (lines, Ok items)
        | (lines, Some e) => (lines, Raise e)
        end
    | Raise e => (feed_text0, Raise e)
    end in
  match outcome with
  | Ok items =>
      Ok (set_comments_text "" (set_content_text ""
           (set_feed_text (join NL feed_text1) (set_contents items self))))
  | Raise e =>
      let error_message := str_exn e in
      wrapped_error <- wrap_text error_message (terminal_width self - 4) ;;
      let feed_text2 :=
        (feed_text1 ++ ["[title]Error fetching content[/title]"; "";
                        wrapped_error; ""; "Try again later or change page."])%list in
      Ok (set_comments_text "" (set_content_text ""
           (set_feed_text (join NL feed_text2) (set_contents [] self))))
  end.

Definition separator_line (self : ui) : string :=
  "[separator]" ++ str_repeat "─" (terminal_width self - 4) ++ "[/separator]".

Fixpoint content_page_texts (title : string) (author date : json)
  (separator : string) (total : Z) (i : Z) (body_pages : list string)
  : list string :=
  match body_pages with
  | [] => []
  | page :: body_pages' =>
      join NL
        ["[title]" ++ title ++ "[/title]";
         "[author]by " ++ py_str author ++ "[/author] | [date]" ++ py_str date
           ++ "[/date]";
         "";
         separator;
         "";
         page;
         "";
         "[page_number]Page " ++ str_of_int (i + 1) ++ " of " ++ str_of_int total
           ++ "[/page_number]"]
      :: content_page_texts title author date separator total (i + 1) body_pages'
  end.

Definition prepare_content_pages (self : ui) : pyres ui :=
  if negb (truthy (current_content self)) then Ok self
  else
    let content := current_content self in
    t <- subscript content "title" ;;
    t <- as_text t ;;
    title <- wrap_text t (terminal_width self - 4) ;;
    author <- subscript content "owner_username" ;;
    date <- subscript content "created_at" ;;
    body <- subscript content "body" ;;
    body <- as_text body ;;
    body_pages <- split_into_pages body (terminal_width self - 4)
                    (terminal_height self - 6) ;;
    Ok (set_content_pages
          (content_page_texts title author date (separator_line self)
             (Z.of_nat (List.length body_pages)) 0 body_pages) self).

Definition show_content (session : transport) (content : json) (self : ui)
  : pyres ui :=
  let self1 := set_current_content_page 0 (set_view_mode Content self) in
  let '(self2, raised) :=
    match (username <- subscript content "owner_username" ;;
           slug <- subscript content "slug" ;;
           get_content session username slug) with
    | Raise e => (self1, Some e)
    | Ok full_content =>
        let self_a := set_current_content full_content self1 in
        match prepare_content_pages self_a with
        | Raise e => (self_a, Some e)
        | Ok self_b =>
            match update_content_view self_b with
            | Raise e => (self_b, Some e)
            | Ok self_c => (self_c, None)
            end
        end
    end in
  match raised with
  | None => Ok self2
  | Some e =>
      let error_message := str_exn e in
      wrapped_error <- wrap_text error_message (terminal_width self2 - 4) ;;
      let error_content :=
        ["[title]Error loading content[/title]"; ""; wrapped_error; "";
         "Press Esc to go back to the feed."] in
      update_content_view (set_content_pages [join NL error_content] self2)
  end.

(** The lines one comment adds to [comments_text]. *)
Definition comment_entry (self : ui) (comment : json) : pyres (list string) :=
  author <- subscript comment "owner_username" ;;
  date <- subscript comment "created_at" ;;
  b <- subscript comment "body" ;;
  b <- as_text b ;;
  body <- wrap_text b (terminal_width self - 4) ;;
  Ok ["[author]" ++ py_str author ++ "[/author] | [date]" ++ py_str date
        ++ "[/date]";
      ""; body; ""; separator_line self; ""].

Fixpoint comment_entries (self : ui) (comments : list json) : pyres (list string) :=
  match comments with
  | [] => Ok []
  | comment :: comments' =>
      entry <- comment_entry self comment ;;
      others <- comment_entries self comments' ;;
      Ok (entry ++ others)%list
  end.

Definition show_comments (session : transport) (self : ui) : pyres ui :=
  if negb (truthy (current_content self)) then Ok self
  else
    let self1 := set_view_mode Comments self in
    let attempt :=
      username <- subscript (current_content self) "owner_username" ;;
      slug <- subscript (current_content self) "slug" ;;
      v <- get_comments session username slug ;;
      comments <- iterate v ;;
      comment_entries self comments in
    comments_text <-
      match attempt with
      | Ok lines => Ok lines
      | Raise e =>
          let error_message := str_exn e in
          wrapped_error <- wrap_text error_message (terminal_width self - 4) ;;
          Ok ["[title]Error loading comments[/title]"; ""; wrapped_error; "";
              "Press Esc to go back to the content."]
      end ;;
    Ok (set_content_text "" (set_comments_text (join NL comments_text) self1)).

(** *** The key bindings of [setup_ui]

    [event.app.invalidate()] asks for a redraw and changes nothing here.  The
    binding of [q] ends the application and is not an event of the model. *)

Inductive key : Type := Up | Down | Left | Right | Enter | Escape | KeyC.

Definition handle_key (k : key) (session : transport) (self : ui) : pyres ui :=
  match k, view_mode self with
  | Up, Feed =>
      update_feed session
        (set_selected_index (Z.max 0 (selected_index self - 1)) self)
  | Up, Content =>
      update_content_view
        (set_current_content_page (Z.max 0 (current_content_page self - 1)) self)
  | Down, Feed =>
      update_feed session
        (set_selected_index
           (Z.min (Z.of_nat (List.length (contents self)) - 1)
                  (selected_index self + 1)) self)
  | Down, Content =>
      update_content_view
        (set_current_content_page
           (Z.min (Z.of_nat (List.length (content_pages self)) - 1)
                  (current_content_page self + 1)) self)
  | Left, Feed =>
      if current_page self >? 1
      then update_feed session
             (set_selected_index 0 (set_current_page (current_page self - 1) self))
      else Ok self
  | Right, Feed =>
      update_feed session
        (set_selected_index 0 (set_current_page (current_page self + 1) self))
  | Enter, Feed =>
      match contents self with
      | [] => Ok self
      | _ =>
          content <- py_index (contents self) (selected_index self) ;;
          show_content session content self
      end
  | Enter, Content => show_comments session self
  | Escape, Content => update_feed session (set_view_mode Feed self)
  | Escape, Comments => update_content_view (set_view_mode Content self)
  | KeyC, Content => show_comments session self
  | _, _ => Ok self
  end.

(** [run]: the first [update_feed], then the key events, one at a time; an
    exception that leaves a handler ends the application. *)
Inductive reachable : ui -> Prop :=
| reach_run : forall session s,
    update_feed session init_ui = Ok s -> reachable s
| reach_key : forall s k session s',
    reachable s -> handle_key k session s = Ok s' -> reachable s'.

(** ** Notions used to state the properties *)

Definition nonempty (s : string) : Prop := s <> EmptyString.

(** A string that does not hold the separator. *)
Definition sep_free (sep : ascii) (s : string) : Prop := has_char sep s = false.

(** The number of lines of a text, as [text.split('\n')] counts them. *)
Definition line_count (page : string) : Z :=
  Z.of_nat (List.length (split chr_nl page)).

(** ceil(n / d) for a positive [d]. *)
Definition ceil_div (n d : Z) : Z := (n + d - 1) / d.

(** What [split_into_pages] returns once the lines are known. *)
Definition pages_of_lines (height : Z) (lines : list string) : list string :=
  let '(pages, current_page) := pages_loop height lines [] [] 0 in
  match current_page with
  | [] => pages
  | _ => (pages ++ [join NL current_page])%list
  end.

Definition close_pages (st : list string * list string) : list string :=
  match snd st with
  | [] => fst st
  | _ => (fst st ++ [join NL (snd st)])%list
  end.

(** Groups of lines: all full but the last, which holds 1 to [height]. *)
Definition groups_ok (height : Z) (groups : list (list string)) : Prop :=
  Forall (fun g => Z.of_nat (List.length g) = height) (removelast groups) /\
  Forall (fun g => 1 <= Z.of_nat (List.length g) <= height) groups.

(** The sum of the lengths of the chunks of a line. *)
Definition total_len (l : list string) : Z :=
  fold_right (fun c n => len c + n) 0 l.

(** What holds of every line the wrapping loop has produced, [P] being a
    property of its characters. *)
Definition line_ok (P : string -> Prop) (width : Z) (line : string) : Prop :=
  len line <= width /\ nonempty line /\ P line.

(** A text whose only whitespace characters are spaces: [_munge_whitespace]
    leaves it as it is. *)
Fixpoint plain_text (s : string) : bool :=
  match s with
  | EmptyString => true
  | String c s' =>
      (negb (textwrap.is_whitespace c) || Ascii.eqb c chr_space) && plain_text s'
  end.

(** The last character exists and is not a space character. *)
Fixpoint ends_in_nonspace (s : string) : bool :=
  match s with
  | EmptyString => false
  | String c EmptyString => negb (py_isspace c)
  | String _ s' => ends_in_nonspace s'
  end.

(** The text of the exception the client raises for a response that is not
    200 and whose body is the dict [items]. *)
Definition api_error_text (status : Z) (items : list (string * json)) : string :=
  "API Error (" ++ str_of_int status ++ "): "
  ++ match assoc "message" items with
     | Some v => py_str v
     | None => "Unknown error"
     end.

(** What a read operation gives for a response whose body is the dict
    [items]. *)
Definition read_outcome (status : Z) (items : list (string * json)) : pyres json :=
  if status =? 200 then Ok (JObj items)
  else Raise (Exception (api_error_text status items)).

(** The request [update_feed] sends, and the lines of the feed buffer after a
    fetch that raised before any entry was listed. *)
Definition feed_request (self : ui) : request :=
  mk_request (BASE_URL ++ "/contents")
    [("page", str_of_int (current_page self)); ("per_page", str_of_int 10);
     ("strategy", current_strategy self)].

Definition error_feed_lines (self : ui) (wrapped_error : string) : list string :=
  ["[page]Page " ++ str_of_int (current_page self) ++ "[/page]"; "";
   "[title]Error fetching content[/title]"; ""; wrapped_error; "";
   "Try again later or change page."].

(** "At most one of the three buffers is non-empty", and the part of it the
    operations keep. *)
Definition at_most_one_buffer (s : ui) : Prop :=
  (feed_text s = EmptyString /\ content_text s = EmptyString)
  \/ (feed_text s = EmptyString /\ comments_text s = EmptyString)
  \/ (content_text s = EmptyString /\ comments_text s = EmptyString).

Definition content_or_comments_empty (s : ui) : Prop :=
  content_text s = EmptyString \/ comments_text s = EmptyString.

(** What the reachable states keep true of the article pages: an open
    article has pages, the page index points into them, and the Comments view
    is only entered with an open article. *)
Definition pages_inv (s : ui) : Prop :=
  (truthy (current_content s) = true -> content_pages s <> [])
  /\ (content_pages s <> [] ->
      0 <= current_content_page s < Z.of_nat (List.length (content_pages s)))
  /\ (view_mode s = Comments -> truthy (current_content s) = true).

(** ** Scenarios

    A transport that answers every request with the same response, the
    documents it serves, and the states of a few sessions. *)

Definition serve (status : Z) (body : json) : transport :=
  fun _ => Ok (mk_response status (Ok body)).

Definition feed_item (title owner slug : string) : json :=
  JObj [("title", JStr title); ("owner_username", JStr owner); ("slug", JStr slug)].

Definition two_items : json :=
  JArr [feed_item "First post" "ann" "first-post";
        feed_item "Second post" "bob" "second-post"].

Definition one_item : json := JArr [feed_item "First post" "ann" "first-post"].

Definition article : json :=
  JObj [("title", JStr "First post"); ("owner_username", JStr "ann");
        ("slug", JStr "first-post"); ("created_at", JStr "2024-01-01");
        ("body", JStr "Hello, world.")].

Definition one_comment : json :=
  JArr [JObj [("owner_username", JStr "bob"); ("created_at", JStr "2024-01-02");
              ("body", JStr "Nice post.")]].

Definition long_message : string :=
  "The requested page is beyond the last page of results; choose a smaller page number and retry.".

Definition state_of (outcome : pyres ui) : ui :=
  match outcome with
  | Ok s => s
  | Raise _ => init_ui
  end.

(** [run] with a feed of two items. *)
Definition feed_of_two : ui :=
  state_of (update_feed (serve 200 two_items) init_ui).

(** Then [down] twice: the first refetch returns the two items again, the
    second only one. *)
Definition second_selected : ui :=
  state_of (handle_key Down (serve 200 two_items) feed_of_two).

Definition shrunk_feed_state : ui :=
  state_of (handle_key Down (serve 200 one_item) second_selected).

(** Or, after [run], [enter] on the first entry, whose article is fetched,
    and [enter] again, which fetches its comments. *)
Definition article_open : ui :=
  state_of (handle_key Enter (serve 200 article) feed_of_two).

Definition comments_open : ui :=
  state_of (handle_key Enter (serve 200 one_comment) article_open).

(** [run] when the fetch fails with a message that does not fit on one line
    of the buffer. *)
Definition long_error_feed : ui :=
  state_of (update_feed (serve 500 (JObj [("message", JStr long_message)])) init_ui).

(** The same with a message of 70 characters, which is shorter than a line of
    the buffer, while the error text that carries it is not. *)
Definition fitting_message : string :=
  "The upstream content service did not answer in time, try again shortly".

Definition fitting_error_feed : ui :=
  state_of (update_feed (serve 500 (JObj [("message", JStr fitting_message)])) init_ui).

(** ** Further notions

    The characters of a text that are not space characters, in order; those
    of a list of texts; and what every reachable state keeps true of the feed
    cursor and of the terminal geometry. *)

Definition visible (s : string) : list ascii :=
  filter (fun c => negb (py_isspace c)) (list_ascii_of_string s).

Definition visible_all (l : list string) : list ascii :=
  List.concat (map visible l).

Definition feed_inv (s : ui) : Prop :=
  1 <= current_page s
  /\ -1 <= selected_index s
  /\ terminal_width s = 80
  /\ terminal_height s = 24
  /\ current_strategy s = "relevant".

(** What [show_content] can change: the open article, the pages and the two
    article buffers; it ends in the Content view on page 0. *)
Definition article_shape (s s' : ui) : Prop :=
  exists cc pages content comments,
    s' = mk_ui (current_page s) (current_strategy s) (selected_index s)
           (contents s) cc Content (terminal_width s) (terminal_height s)
           pages 0 (feed_text s) content comments.

(** The lines of the error page of [show_content] and of the error block of
    [show_comments]. *)
Definition error_content_lines (wrapped_error : string) : list string :=
  ["[title]Error loading content[/title]"; ""; wrapped_error; "";
   "Press Esc to go back to the feed."].

Definition error_comments_lines (wrapped_error : string) : list string :=
  ["[title]Error loading comments[/title]"; ""; wrapped_error; "";
   "Press Esc to go back to the content."].

(** The fetch of [show_content] and the attempt of [show_comments], as their
    [try] blocks start. *)
Definition fetch_content (session : transport) (content : json) : pyres json :=
  username <- subscript content "owner_username" ;;
  slug <- subscript content "slug" ;;
  get_content session username slug.

Definition fetch_comment_lines (session : transport) (self : ui)
  : pyres (list string) :=
  username <- subscript (current_content self) "owner_username" ;;
  slug <- subscript (current_content self) "slug" ;;
  v <- get_comments session username slug ;;
  comments <- iterate v ;;
  comment_entries self comments.

(** The text of one article page, as [prepare_content_pages] builds it. *)
Definition content_page_text (title : string) (author date : json)
  (separator : string) (total i : Z) (page : string) : string :=
  join NL
    ["[title]" ++ title ++ "[/title]";
     "[author]by " ++ py_str author ++ "[/author] | [date]" ++ py_str date
       ++ "[/date]";
     "";
     separator;
     "";
     page;
     "";
     "[page_number]Page " ++ str_of_int (i + 1) ++ " of " ++ str_of_int total
       ++ "[/page_number]"].

(** The two lines [update_feed] starts the feed buffer with, and the lines it
    adds when the fetch or the listing raised. *)
Definition feed_header (self : ui) : list string :=
  ["[page]Page " ++ str_of_int (current_page self) ++ "[/page]"; ""].

Definition error_block_lines (wrapped_error : string) : list string :=
  ["[title]Error fetching content[/title]"; ""; wrapped_error; "";
   "Try again later or change page."].

(** [update_feed] writes the list and the three buffers. *)
Definition with_feed (items : list json) (text : string) (self : ui) : ui :=
  set_comments_text "" (set_content_text "" (set_feed_text text (set_contents items self))).

(** A feed item without a slug, and a feed with a malformed second item. *)
Definition item_without_slug : json :=
  JObj [("title", JStr "No slug"); ("owner_username", JStr "ann")].

Definition feed_with_bad_item : json :=
  JArr [feed_item "First post" "ann" "first-post";
        JObj [("owner_username", JStr "bob")];
        feed_item "Third post" "cid" "third-post"].

(** [down] on the empty feed of [long_error_feed], the refetch returning two
    items. *)
Definition minus_one_selected : ui :=
  state_of (handle_key Down (serve 200 two_items) long_error_feed).

(** * Properties *)

(** ** Splitting and joining *)

Section SplitJoin.

Variable sep : ascii.

Lemma split_not_nil (s : string) : split sep s <> [].
Proof.
  destruct s as [|c s]; simpl; [discriminate|].
  destruct (Ascii.eqb c sep); [discriminate|].
  destruct (split sep s); discriminate.
Qed.

Lemma split_sep_free (s : string) : Forall (sep_free sep) (split sep s).
Proof.
  induction s as [|c s IH]; simpl.
  - repeat constructor.
  - destruct (Ascii.eqb c sep) eqn:E.
    + constructor; [reflexivity | exact IH].
    + destruct (split sep s) as [|piece rest]; inversion IH; subst;
        constructor; auto; unfold sep_free; simpl; rewrite E; auto.
Qed.

Lemma split_one (s : string) : sep_free sep s -> split sep s = [s].
Proof.
  unfold sep_free. induction s as [|c s IH]; simpl; intros H; [reflexivity|].
  apply orb_false_iff in H as [H1 H2]. rewrite H1, (IH H2). reflexivity.
Qed.

Lemma split_app (s t : string) :
  sep_free sep s -> split sep (s ++ String sep t) = s :: split sep t.
Proof.
  unfold sep_free. induction s as [|c s IH]; simpl; intros H.
  - rewrite Ascii.eqb_refl. reflexivity.
  - apply orb_false_iff in H as [H1 H2]. rewrite H1, (IH H2). reflexivity.
Qed.

Lemma split_join (l : list string) :
  l <> [] -> Forall (sep_free sep) l ->
  split sep (join (String sep EmptyString) l) = l.
Proof.
  induction l as [|x l IH]; intros Hne Hall; [congruence|].
  inversion Hall as [|? ? Hx Hl]; subst.
  destruct l as [|y l].
  - simpl. apply split_one, Hx.
  - change (join (String sep EmptyString) (x :: y :: l))
      with (x ++ String sep (join (String sep EmptyString) (y :: l))).
    rewrite (split_app _ _ Hx), IH; [reflexivity | discriminate | exact Hl].
Qed.

End SplitJoin.

(** ** Pagination: the loop of [split_into_pages] *)

Lemma groups_ok_cons (height : Z) (g : list string) (groups : list (list string)) :
  Z.of_nat (List.length g) = height -> 1 <= height -> groups <> [] ->
  groups_ok height groups -> groups_ok height (g :: groups).
Proof.
  intros Hg Hh Hne [H1 H2]. split.
  - destruct groups as [|g' groups]; [congruence|].
    change (removelast (g :: g' :: groups)) with (g :: removelast (g' :: groups)).
    constructor; assumption.
  - constructor; [lia | assumption].
Qed.

Lemma pages_loop_groups (height : Z) (lines : list string) :
  1 <= height ->
  forall pages current_page,
    Z.of_nat (List.length current_page) <= height ->
    exists groups,
      close_pages (pages_loop height lines pages current_page
                     (Z.of_nat (List.length current_page)))
      = (pages ++ map (join NL) groups)%list
      /\ List.concat groups = (current_page ++ lines)%list
      /\ groups_ok height groups.
Proof.
  intros Hh. induction lines as [|line lines IH]; intros pages cur Hcur.
  - simpl. destruct cur as [|l cur].
    + exists []. unfold close_pages; simpl. rewrite app_nil_r.
      repeat split; constructor.
    + exists [l :: cur]. unfold close_pages; simpl.
      rewrite !app_nil_r. repeat split; repeat constructor.
      * simpl List.length. lia.
      * exact Hcur.
  - simpl pages_loop.
    destruct (Z.of_nat (List.length cur) >=? height) eqn:E.
    + apply Z.geb_le in E.
      destruct (IH (pages ++ [join NL cur])%list [line]) as (groups & Hp & Hc & Hok).
      { simpl. lia. }
      exists (cur :: groups). split; [|split].
      * simpl List.length in Hp. simpl Z.of_nat in Hp.
        rewrite Hp, <- app_assoc. reflexivity.
      * simpl. rewrite Hc. reflexivity.
      * apply groups_ok_cons; [lia | lia | intros ->; discriminate Hc | exact Hok].
    + rewrite Z.geb_leb in E. apply Z.leb_gt in E.
      destruct (IH pages (cur ++ [line])%list) as (groups & Hp & Hc & Hok).
      { rewrite length_app. simpl. lia. }
      exists groups. repeat split; try apply Hok.
      * rewrite <- Hp. rewrite length_app. simpl List.length.
        rewrite Nat2Z.inj_add. reflexivity.
      * rewrite Hc, <- app_assoc. reflexivity.
Qed.

Lemma pages_of_lines_groups (height : Z) (lines : list string) :
  1 <= height ->
  exists groups,
    pages_of_lines height lines = map (join NL) groups
    /\ List.concat groups = lines
    /\ groups_ok height groups.
Proof.
  intros Hh.
  destruct (pages_loop_groups height lines Hh [] []) as (groups & Hp & Hc & Hok).
  { simpl. lia. }
  exists groups. repeat split; try apply Hok; try exact Hc.
  unfold pages_of_lines. unfold close_pages in Hp. simpl in Hp.
  destruct (pages_loop height lines [] [] 0) as [pages cur]. exact Hp.
Qed.

Lemma groups_split_join (height : Z) (groups : list (list string)) :
  groups_ok height groups ->
  Forall (sep_free chr_nl) (List.concat groups) ->
  map (split chr_nl) (map (join NL) groups) = groups.
Proof.
  intros [_ Hlen]. induction groups as [|g groups IH]; intros Hfree; [reflexivity|].
  simpl in Hfree. apply Forall_app in Hfree as [Hg Hrest].
  inversion Hlen as [|? ? Hg1 Hlen']; subst.
  simpl. rewrite (IH Hlen' Hrest). f_equal.
  apply split_join; [|exact Hg].
  intros ->. simpl in Hg1. lia.
Qed.

Lemma groups_count (height : Z) (groups : list (list string)) :
  groups_ok height groups -> groups <> [] ->
  Z.of_nat (List.length (List.concat groups))
  = height * Z.of_nat (List.length (removelast groups))
    + Z.of_nat (List.length (last groups [])).
Proof.
  intros [Hfull _]. induction groups as [|g groups IH]; intros Hne; [congruence|].
  destruct groups as [|g' groups].
  - simpl. rewrite app_nil_r. lia.
  - change (removelast (g :: g' :: groups)) with (g :: removelast (g' :: groups))
      in Hfull |- *.
    change (last (g :: g' :: groups) []) with (last (g' :: groups) []).
    inversion Hfull as [|? ? Hg Hfull']; subst.
    change (List.concat (g :: g' :: groups))
      with (g ++ List.concat (g' :: groups))%list.
    rewrite length_app, Nat2Z.inj_add, (IH Hfull') by discriminate.
    simpl List.length. lia.
Qed.

Lemma ceil_div_unique (n d k r : Z) :
  n = d * (k - 1) + r -> 1 <= r <= d -> ceil_div n d = k.
Proof.
  intros -> Hr. unfold ceil_div. symmetry.
  apply (Z.div_unique_pos _ _ k (r - 1)); lia.
Qed.

Lemma wrap_text_total (text : string) (width : Z) :
  0 < width -> exists wrapped, wrap_text text width = Ok wrapped.
Proof.
  intros Hw. unfold wrap_text, textwrap.fill, textwrap.wrap, textwrap._wrap_chunks.
  destruct (width <=? 0) eqn:E; [apply Z.leb_le in E; lia|].
  simpl. eexists. reflexivity.
Qed.

Lemma wrap_text_empty (width : Z) :
  0 < width -> wrap_text EmptyString width = Ok EmptyString.
Proof.
  intros Hw. unfold wrap_text, textwrap.fill, textwrap.wrap, textwrap._wrap_chunks.
  destruct (width <=? 0) eqn:E; [apply Z.leb_le in E; lia|]. reflexivity.
Qed.

Lemma split_into_pages_eq (text : string) (width height : Z) (wrapped : string) :
  wrap_text text width = Ok wrapped ->
  split_into_pages text width height
  = Ok (pages_of_lines height (split chr_nl wrapped)).
Proof.
  intros Hw. unfold split_into_pages, pages_of_lines. rewrite Hw. simpl.
  destruct (pages_loop height (split chr_nl wrapped) [] [] 0). reflexivity.
Qed.

(** C4.  For every text and every height of at least 1 (and a width the
    wrapping accepts), [split_into_pages] returns ceil(n / height) pages, n
    being the number of lines of the wrapped text: every page but the last
    holds exactly [height] lines, the last holds the remaining 1 to [height]
    lines, and an empty body gives the single empty page. *)
Theorem split_into_pages_page_count (text : string) (width height : Z) :
  0 < width -> 1 <= height ->
  exists wrapped pages full last_page,
    wrap_text text width = Ok wrapped
    /\ split_into_pages text width height = Ok pages
    /\ Z.of_nat (List.length pages) = ceil_div (line_count wrapped) height
    /\ pages = (full ++ [last_page])%list
    /\ Forall (fun page => line_count page = height) full
    /\ 1 <= line_count last_page <= height
    /\ line_count last_page
       = line_count wrapped - height * Z.of_nat (List.length full)
    /\ (text = EmptyString -> pages = [EmptyString]).
Proof.
  intros Hw Hh.
  destruct (wrap_text_total text width Hw) as [wrapped Hwrap].
  destruct (pages_of_lines_groups height (split chr_nl wrapped) Hh)
    as (groups & Hp & Hc & Hok).
  assert (Hne : groups <> []).
  { intros ->. simpl in Hc. symmetry in Hc. exact (split_not_nil _ _ Hc). }
  pose proof (groups_count height groups Hok Hne) as Hcount.
  rewrite Hc in Hcount.
  assert (Hfree : Forall (sep_free chr_nl) (List.concat groups)).
  { rewrite Hc. apply split_sep_free. }
  destruct (exists_last Hne) as (front & last_group & ->).
  rewrite removelast_last, last_last in Hcount.
  destruct Hok as [Hfull Hall]. rewrite removelast_last in Hfull.
  rewrite Forall_forall in Hfull, Hall, Hfree.
  assert (Hlc : forall g, In g (front ++ [last_group]) ->
                line_count (join NL g) = Z.of_nat (List.length g)).
  { intros g Hg. unfold line_count. f_equal. f_equal. apply split_join.
    - intros ->. specialize (Hall _ Hg). simpl in Hall. lia.
    - rewrite Forall_forall. intros x Hx. apply Hfree.
      apply in_concat. exists g. split; assumption. }
  assert (Hin_last : In last_group (front ++ [last_group])).
  { apply in_or_app. right. left. reflexivity. }
  pose proof (Hall _ Hin_last) as Hlast.
  exists wrapped, (pages_of_lines height (split chr_nl wrapped)),
    (map (join NL) front), (join NL last_group).
  repeat split.
  - exact Hwrap.
  - apply split_into_pages_eq, Hwrap.
  - rewrite Hp, length_map, length_app. simpl List.length. symmetry.
    apply (ceil_div_unique _ _ _ (Z.of_nat (List.length last_group))).
    + unfold line_count. rewrite Hcount. lia.
    + exact Hlast.
  - rewrite Hp, map_app. reflexivity.
  - rewrite Forall_map, Forall_forall.
    intros g Hg. rewrite Hlc; [apply Hfull, Hg|].
    apply in_or_app. left. exact Hg.
  - rewrite Hlc by exact Hin_last. lia.
  - rewrite Hlc by exact Hin_last. lia.
  - rewrite Hlc by exact Hin_last. rewrite length_map.
    unfold line_count. lia.
  - intros ->. rewrite (wrap_text_empty width Hw) in Hwrap.
    injection Hwrap as <-. unfold pages_of_lines. simpl.
    destruct (0 >=? height) eqn:E; [apply Z.geb_le in E; lia | reflexivity].
Qed.

Lemma split_into_pages_page_count_witness :
  exists wrapped pages full last_page,
    wrap_text "one two three four five six" 9 = Ok wrapped
    /\ split_into_pages "one two three four five six" 9 2 = Ok pages
    /\ Z.of_nat (List.length pages) = ceil_div (line_count wrapped) 2
    /\ pages = (full ++ [last_page])%list
    /\ Forall (fun page => line_count page = 2) full
    /\ 1 <= line_count last_page <= 2
    /\ line_count last_page = line_count wrapped - 2 * Z.of_nat (List.length full)
    /\ ("one two three four five six" = EmptyString -> pages = [EmptyString]).
Proof.
  apply (split_into_pages_page_count "one two three four five six" 9 2); lia.
Defined.

(** C5.  For every text, width and height of at least 1: when the wrapping
    returns, so does [split_into_pages], and the lines of its pages, taken in
    page order, are exactly the lines of the wrapped text, in order; when the
    wrapping raises (a width that is not positive), [split_into_pages] raises
    the same exception and returns no page. *)
Theorem split_into_pages_round_trip (text : string) (width height : Z) :
  1 <= height ->
  match wrap_text text width with
  | Ok wrapped =>
      exists pages,
        split_into_pages text width height = Ok pages
        /\ List.concat (map (split chr_nl) pages) = split chr_nl wrapped
  | Raise e => split_into_pages text width height = Raise e
  end
  /\ (0 < width -> exists wrapped, wrap_text text width = Ok wrapped).
Proof.
  intros Hh. split; [|apply wrap_text_total].
  destruct (wrap_text text width) as [wrapped|e] eqn:Hwrap.
  - exists (pages_of_lines height (split chr_nl wrapped)).
    split; [apply split_into_pages_eq, Hwrap|].
    destruct (pages_of_lines_groups height (split chr_nl wrapped) Hh)
      as (groups & Hp & Hc & Hok).
    rewrite Hp, (groups_split_join height), Hc; auto.
    rewrite Hc. apply split_sep_free.
  - unfold split_into_pages. rewrite Hwrap. reflexivity.
Qed.

Lemma split_into_pages_round_trip_witness :
  match wrap_text "one two three four five six" 9 with
  | Ok wrapped =>
      exists pages,
        split_into_pages "one two three four five six" 9 2 = Ok pages
        /\ List.concat (map (split chr_nl) pages) = split chr_nl wrapped
  | Raise e => split_into_pages "one two three four five six" 9 2 = Raise e
  end
  /\ (0 < 9 -> exists wrapped,
        wrap_text "one two three four five six" 9 = Ok wrapped).
Proof.
  apply (split_into_pages_round_trip "one two three four five six" 9 2); lia.
Defined.

(** ** Strings: lengths and characters *)

Lemma length_append (s t : string) :
  String.length (s ++ t) = (String.length s + String.length t)%nat.
Proof. induction s as [|c s IH]; simpl; [reflexivity | rewrite IH; reflexivity]. Qed.

Lemma len_append (s t : string) : len (s ++ t) = len s + len t.
Proof. unfold len. rewrite length_append. lia. Qed.

Lemma len_nonneg (s : string) : 0 <= len s.
Proof. unfold len. lia. Qed.

Lemma len_zero (s : string) : len s = 0 -> s = EmptyString.
Proof. destruct s; [reflexivity | unfold len; simpl; lia]. Qed.

Lemma has_char_append (c : ascii) (s t : string) :
  has_char c (s ++ t) = has_char c s || has_char c t.
Proof.
  induction s as [|d s IH]; simpl; [reflexivity|].
  rewrite IH, orb_assoc. reflexivity.
Qed.

Lemma has_char_substring (c : ascii) (s : string) :
  has_char c s = false -> forall n m, has_char c (substring n m s) = false.
Proof.
  induction s as [|d s IH]; intros H n m.
  - destruct n, m; reflexivity.
  - simpl in H. apply orb_false_iff in H as [H1 H2].
    destruct n as [|n]; [destruct m as [|m]|]; simpl; auto.
    rewrite H1. simpl. apply IH, H2.
Qed.

Lemma length_substring_prefix (s : string) (n : nat) :
  String.length (substring 0 n s) = Nat.min n (String.length s).
Proof.
  revert n. induction s as [|c s IH]; intros [|n]; simpl; auto.
Qed.

Lemma length_substring_suffix (s : string) (n : nat) :
  (n <= String.length s)%nat ->
  String.length (substring n (String.length s - n) s) = (String.length s - n)%nat.
Proof.
  revert n. induction s as [|c s IH]; intros [|n] H; simpl in *; auto.
  - f_equal. specialize (IH 0%nat). rewrite Nat.sub_0_r in IH. apply IH. lia.
  - apply IH. lia.
Qed.

Lemma len_slice_to (s : string) (e : Z) :
  0 <= e <= len s -> len (slice_to s e) = e.
Proof.
  intros H. unfold len, slice_to, slice_bound in *.
  destruct (e <? 0) eqn:E; [apply Z.ltb_lt in E; lia|].
  rewrite length_substring_prefix. lia.
Qed.

Lemma len_slice_from (s : string) (e : Z) :
  0 <= e <= len s -> len (slice_from s e) = len s - e.
Proof.
  intros H. unfold len, slice_from, slice_bound in *.
  destruct (e <? 0) eqn:E; [apply Z.ltb_lt in E; lia|].
  rewrite length_substring_suffix; lia.
Qed.

Lemma total_len_app (l1 l2 : list string) :
  total_len (l1 ++ l2) = total_len l1 + total_len l2.
Proof. induction l1 as [|c l1 IH]; simpl; [reflexivity | rewrite IH; lia]. Qed.

Lemma total_len_nonneg (l : list string) : 0 <= total_len l.
Proof.
  induction l as [|c l IH]; simpl; [lia | pose proof (len_nonneg c); lia].
Qed.

Lemma len_join_empty (l : list string) : len (join "" l) = total_len l.
Proof.
  induction l as [|c l IH]; [reflexivity|].
  destruct l as [|d l]; [simpl; lia|].
  change (join "" (c :: d :: l)) with (c ++ "" ++ join "" (d :: l)).
  rewrite !len_append, IH. simpl. lia.
Qed.

Lemma has_char_join_empty (c : ascii) (l : list string) :
  Forall (sep_free c) l -> has_char c (join "" l) = false.
Proof.
  induction l as [|x l IH]; intros H; [reflexivity|].
  inversion H as [|? ? Hx Hl]; subst.
  destruct l as [|y l]; [exact Hx|].
  change (join "" (x :: y :: l)) with (x ++ "" ++ join "" (y :: l)).
  rewrite !has_char_append, Hx, (IH Hl). reflexivity.
Qed.

Lemma total_len_removelast (l : list string) :
  total_len (removelast l) <= total_len l.
Proof.
  induction l as [|c l IH]; [simpl; lia|].
  destruct l as [|d l]; [simpl; pose proof (len_nonneg c); lia|].
  change (removelast (c :: d :: l)) with (c :: removelast (d :: l)).
  simpl in *. lia.
Qed.

(** ** The wrapping loop of [textwrap] *)

Lemma join_empty_cons (x : string) (l : list string) :
  join "" (x :: l) = x ++ join "" l.
Proof.
  destruct l as [|y l]; simpl; [|reflexivity].
  induction x as [|c x IH]; simpl; [reflexivity | rewrite <- IH; reflexivity].
Qed.

Lemma total_len_pos (l : list string) :
  Forall nonempty l -> l <> [] -> 0 < total_len l.
Proof.
  intros H Hne. destruct l as [|c l]; [congruence|].
  inversion H as [|? ? Hc _]; subst. simpl.
  pose proof (total_len_nonneg l). pose proof (len_nonneg c).
  assert (len c <> 0) by (intros E; apply Hc, len_zero, E). lia.
Qed.

Lemma Forall_removelast {A : Type} (Q : A -> Prop) (l : list A) :
  Forall Q l -> Forall Q (removelast l).
Proof.
  induction l as [|x l IH]; intros H; [constructor|].
  inversion H; subst. destruct l; [constructor|].
  change (Forall Q (x :: removelast (a :: l))). constructor; auto.
Qed.

Lemma chunks_size_app (l1 l2 : list string) :
  textwrap.chunks_size (l1 ++ l2)
  = (textwrap.chunks_size l1 + textwrap.chunks_size l2)%nat.
Proof. induction l1 as [|c l1 IH]; simpl; [reflexivity | rewrite IH; lia]. Qed.

Lemma chunks_size_total_len (l : list string) :
  Z.of_nat (textwrap.chunks_size l) = total_len l + Z.of_nat (List.length l).
Proof. induction l as [|c l IH]; simpl; [reflexivity | unfold len; lia]. Qed.

Lemma rfind_hyphen_from_bounds (s : string) (i stop : Z) :
  textwrap.rfind_hyphen_from i s stop = -1
  \/ i <= textwrap.rfind_hyphen_from i s stop < stop.
Proof.
  revert i. induction s as [|c s IH]; intros i; simpl; [left; reflexivity|].
  destruct (i <? stop) eqn:E; [apply Z.ltb_lt in E | left; reflexivity].
  destruct (0 <=? textwrap.rfind_hyphen_from (i + 1) s stop) eqn:E0.
  - destruct (IH (i + 1)) as [H|H]; [rewrite H in E0; discriminate | right; lia].
  - destruct (textwrap.is_hyphen c); [right; lia | left; reflexivity].
Qed.

Lemma fit_spec (width : Z) (chunks : list string) :
  forall cur_line cur_line' cur_len' rest,
    total_len cur_line <= width ->
    textwrap.fit width cur_line (total_len cur_line) chunks
    = (cur_line', cur_len', rest) ->
    cur_len' = total_len cur_line' /\ cur_len' <= width
    /\ (exists taken, cur_line' = cur_line ++ taken /\ chunks = taken ++ rest)%list
    /\ match rest with
       | c :: _ => width < cur_len' + len c
       | [] => True
       end.
Proof.
  induction chunks as [|c below IH]; intros cl cl' n' rest Hle Hfit; simpl in Hfit.
  - injection Hfit as <- <- <-. repeat split; auto.
    exists []. rewrite app_nil_r. auto.
  - destruct (total_len cl + len c <=? width) eqn:E.
    + apply Z.leb_le in E.
      assert (Hsum : total_len (cl ++ [c]) = total_len cl + len c).
      { rewrite total_len_app. simpl. lia. }
      rewrite <- Hsum in Hfit.
      assert (Hle' : total_len (cl ++ [c]) <= width) by lia.
      destruct (IH _ _ _ _ Hle' Hfit) as (H1 & H2 & (taken & H3 & H4) & H5).
      repeat split; auto.
      exists (c :: taken). rewrite H3, H4, <- app_assoc. auto.
    + apply Z.leb_gt in E. injection Hfit as <- <- <-.
      repeat split; auto. exists []. rewrite app_nil_r. auto.
Qed.

Lemma handle_long_word_spec (c : string) (below cur_line : list string)
  (width : Z) :
  1 <= width -> total_len cur_line <= width -> width < len c ->
  exists e,
    textwrap._handle_long_word (c :: below) cur_line (total_len cur_line) width
    = (slice_from c e :: below, cur_line ++ [slice_to c e])%list
    /\ 0 <= e <= width - total_len cur_line
    /\ (total_len cur_line < width -> 1 <= e).
Proof.
  intros Hw Hle Hlong. unfold textwrap._handle_long_word.
  destruct (width <? 1) eqn:E; [apply Z.ltb_lt in E; lia|].
  destruct (len c >? width - total_len cur_line) eqn:E1.
  - unfold textwrap.rfind_hyphen.
    destruct (rfind_hyphen_from_bounds c 0 (width - total_len cur_line)) as [H|H].
    + rewrite H. simpl. eexists. split; [reflexivity|]. lia.
    + destruct ((textwrap.rfind_hyphen_from 0 c (width - total_len cur_line) >? 0)
                && textwrap.any_non_hyphen
                     (slice_to c (textwrap.rfind_hyphen_from 0 c
                                    (width - total_len cur_line)))) eqn:E2.
      * eexists. split; [reflexivity|].
        apply andb_true_iff in E2 as [E2 _]. apply Z.gtb_lt in E2. lia.
      * eexists. split; [reflexivity|]. lia.
  - eexists. split; [reflexivity|]. lia.
Qed.

Lemma drop_trailing_app (front : list string) (piece : string) :
  textwrap.drop_trailing (front ++ [piece])
  = if strip_is_empty piece then front else (front ++ [piece])%list.
Proof.
  unfold textwrap.drop_trailing. rewrite rev_app_distr. simpl.
  destruct (strip_is_empty piece); [apply removelast_last | reflexivity].
Qed.

Section WrapInvariant.

(** A property of chunks that their pieces and the lines made of them keep. *)
Variable P : string -> Prop.
Hypothesis P_substring : forall s n m, P s -> P (substring n m s).
Hypothesis P_join : forall l, Forall P l -> P (join "" l).

Lemma drop_trailing_ok (cur_line : list string) :
  Forall nonempty (removelast cur_line) -> Forall P cur_line ->
  total_len (textwrap.drop_trailing cur_line) <= total_len cur_line
  /\ (textwrap.drop_trailing cur_line <> [] ->
      0 < total_len (textwrap.drop_trailing cur_line))
  /\ Forall P (textwrap.drop_trailing cur_line).
Proof.
  intros Hne HP.
  destruct cur_line as [|x l] using rev_ind.
  { repeat split; [simpl; lia | intros H; exfalso; apply H; reflexivity | constructor]. }
  clear IHl. rewrite removelast_last in Hne. rewrite drop_trailing_app.
  destruct (strip_is_empty x) eqn:E.
  - repeat split.
    + rewrite total_len_app. simpl. pose proof (len_nonneg x). lia.
    + apply total_len_pos, Hne.
    + apply Forall_app in HP. apply HP.
  - repeat split; auto; try lia. intros _.
    rewrite total_len_app. simpl. pose proof (total_len_nonneg l).
    pose proof (len_nonneg x).
    assert (len x <> 0); [|lia].
    intros Hz. apply len_zero in Hz. subst x. discriminate E.
Qed.

Lemma wrap_step_spec (width : Z) (chunks lines chunks' lines' : list string) :
  1 <= width -> chunks <> [] -> Forall nonempty chunks -> Forall P chunks ->
  textwrap.wrap_step width chunks lines = (chunks', lines') ->
  exists cur_line,
    lines' = textwrap.push_line lines cur_line
    /\ total_len cur_line <= width
    /\ (cur_line <> [] -> 0 < total_len cur_line)
    /\ Forall P cur_line
    /\ Forall nonempty chunks' /\ Forall P chunks'
    /\ (textwrap.chunks_size chunks' < textwrap.chunks_size chunks)%nat.
Proof.
  intros Hw Hne Hall HP Hstep. unfold textwrap.wrap_step in Hstep.
  remember (textwrap.drop_leading chunks lines) as chunks1 eqn:Hc1.
  assert (Hdrop : chunks1 = chunks \/ exists c, chunks = c :: chunks1).
  { subst chunks1. unfold textwrap.drop_leading.
    destruct chunks as [|c below]; [congruence|].
    destruct lines; [left; reflexivity|].
    destruct (strip_is_empty c); [right; eauto | left; reflexivity]. }
  clear Hc1.
  assert (Hall1 : Forall nonempty chunks1 /\ Forall P chunks1
                  /\ (textwrap.chunks_size chunks1 <= textwrap.chunks_size chunks)%nat).
  { destruct Hdrop as [->|[c Hc]]; [auto|].
    rewrite Hc in Hall, HP |- *. inversion Hall; inversion HP; subst.
    repeat split; auto. simpl. lia. }
  destruct Hall1 as (Hall1 & HP1 & Hsize1).
  destruct (textwrap.fit width [] 0 chunks1) as [[cur_line cur_len] chunks2] eqn:Hfit.
  change 0 with (total_len []) in Hfit.
  apply fit_spec in Hfit; [|simpl; lia].
  destruct Hfit as (-> & Hle & (taken & Htaken & Hchunks1) & Hhead).
  simpl in Htaken. subst taken.
  rewrite Hchunks1 in Hall1, HP1.
  apply Forall_app in Hall1 as [Hall_line Hall2].
  apply Forall_app in HP1 as [HP_line HP2].
  assert (Hsize2 : Z.of_nat (textwrap.chunks_size chunks1)
                   = total_len cur_line + Z.of_nat (List.length cur_line)
                     + Z.of_nat (textwrap.chunks_size chunks2)).
  { rewrite Hchunks1, chunks_size_app, Nat2Z.inj_add, chunks_size_total_len. lia. }
  assert (Hline_pos : cur_line <> [] -> 0 < Z.of_nat (List.length cur_line)).
  { destruct cur_line; [congruence | simpl; lia]. }
  pose proof (total_len_nonneg cur_line) as Hnn.
  unfold textwrap.long_word in Hstep.
  destruct chunks2 as [|c below].
  - injection Hstep as <- <-.
    destruct (drop_trailing_ok cur_line) as (H1 & H2 & H3);
      [apply Forall_removelast, Hall_line | exact HP_line |].
    exists (textwrap.drop_trailing cur_line). repeat split; auto; try lia.
    destruct chunks; [congruence | simpl; lia].
  - destruct (len c >? width) eqn:E.
    + apply Z.gtb_lt in E.
      destruct (handle_long_word_spec c below cur_line width Hw Hle E)
        as (e & He & Hbound & Hpos).
      rewrite He in Hstep. injection Hstep as <- <-.
      destruct (drop_trailing_ok (cur_line ++ [slice_to c e])) as (H1 & H2 & H3).
      { rewrite removelast_last. exact Hall_line. }
      { apply Forall_app. split; [exact HP_line|].
        constructor; [|constructor]. apply P_substring.
        inversion HP2; assumption. }
      assert (Hfrom : len (slice_from c e) = len c - e) by (apply len_slice_from; lia).
      assert (Hto : len (slice_to c e) = e) by (apply len_slice_to; lia).
      exists (textwrap.drop_trailing (cur_line ++ [slice_to c e])).
      repeat split; auto.
      * rewrite total_len_app in H1. simpl in H1. lia.
      * inversion Hall2; subst. constructor; [|assumption].
        intros Hempty. rewrite Hempty in Hfrom. unfold len in Hfrom at 1.
        simpl in Hfrom. lia.
      * inversion HP2; subst. constructor; [|assumption].
        apply P_substring. assumption.
      * apply Nat2Z.inj_lt.
        assert (Z.of_nat (textwrap.chunks_size (slice_from c e :: below))
                = len c - e + 1 + Z.of_nat (textwrap.chunks_size below)).
        { simpl textwrap.chunks_size. unfold len in *. lia. }
        assert (Z.of_nat (textwrap.chunks_size (c :: below))
                = len c + 1 + Z.of_nat (textwrap.chunks_size below)).
        { simpl textwrap.chunks_size. unfold len. lia. }
        destruct cur_line as [|x cur_line]; simpl List.length in *; simpl in Hpos.
        all: lia.
    + rewrite Z.gtb_ltb in E. apply Z.ltb_ge in E.
      injection Hstep as <- <-.
      destruct (drop_trailing_ok cur_line) as (H1 & H2 & H3);
        [apply Forall_removelast, Hall_line | exact HP_line |].
      exists (textwrap.drop_trailing cur_line). repeat split; auto; try lia.
Qed.

Lemma push_line_ok (width : Z) (lines cur_line : list string) :
  Forall (line_ok P width) lines ->
  total_len cur_line <= width -> (cur_line <> [] -> 0 < total_len cur_line) ->
  Forall P cur_line ->
  Forall (line_ok P width) (textwrap.push_line lines cur_line).
Proof.
  intros Hlines Hle Hpos HP. unfold textwrap.push_line.
  destruct cur_line as [|x l]; [exact Hlines|].
  apply Forall_app. split; [exact Hlines|]. constructor; [|constructor].
  repeat split.
  - rewrite len_join_empty. exact Hle.
  - intros Hempty. specialize (Hpos ltac:(discriminate)).
    rewrite <- len_join_empty, Hempty in Hpos. unfold len in Hpos. simpl in Hpos. lia.
  - apply P_join, HP.
Qed.

Lemma wrap_loop_spec (width : Z) :
  1 <= width ->
  forall fuel chunks lines,
    (textwrap.chunks_size chunks <= fuel)%nat ->
    Forall nonempty chunks -> Forall P chunks ->
    Forall (line_ok P width) lines ->
    fst (textwrap.wrap_loop fuel width chunks lines) = []
    /\ Forall (line_ok P width) (snd (textwrap.wrap_loop fuel width chunks lines)).
Proof.
  intros Hw. induction fuel as [|fuel IH]; intros chunks lines Hfuel Hall HP Hlines.
  - destruct chunks; [simpl; auto | simpl in Hfuel; lia].
  - destruct chunks as [|c below]; [simpl; auto|].
    cbn [textwrap.wrap_loop].
    destruct (textwrap.wrap_step width (c :: below) lines) as [chunks' lines'] eqn:Hstep.
    assert (Hne : c :: below <> []) by discriminate.
    destruct (wrap_step_spec _ _ _ _ _ Hw Hne Hall HP Hstep)
      as (cur_line & -> & Hle & Hpos & HPl & Hall' & HP' & Hsize).
    apply IH; auto; [lia|]. apply push_line_ok; auto.
Qed.

End WrapInvariant.

(** ** The chunks of [_split_chunks] *)

(** The two examples of the library's own comments. *)
Example split_example :
  textwrap._split "Hello there -- you goof-ball, use the -b option!"
  = ["Hello"; " "; "there"; " "; "--"; " "; "you"; " "; "goof-"; "ball,"; " ";
     "use"; " "; "the"; " "; "-b"; " "; "option!"].
Proof. vm_compute. reflexivity. Qed.

Example munge_whitespace_example :
  textwrap._munge_whitespace
    (" foo" ++ String chr_tab "bar" ++ String chr_nl (String chr_nl "baz"))
  = " foo    bar  baz".
Proof. vm_compute. reflexivity. Qed.

Lemma string_of_list_ascii_app (a b : list ascii) :
  string_of_list_ascii (a ++ b) = string_of_list_ascii a ++ string_of_list_ascii b.
Proof. induction a as [|c a IH]; simpl; [reflexivity | rewrite IH; reflexivity]. Qed.

Lemma scan_join (rest : list ascii) :
  forall k before cur,
    join "" (textwrap.scan k before cur rest)
    = string_of_list_ascii (rev cur ++ rest).
Proof.
  induction rest as [|c rest IH]; intros k before cur.
  - cbn [textwrap.scan]. rewrite app_nil_r. destruct cur; reflexivity.
  - cbn [textwrap.scan].
    match goal with |- context [if ?b then _ else _] => destruct b end.
    + rewrite join_empty_cons, IH, <- string_of_list_ascii_app.
      simpl. rewrite <- app_assoc. reflexivity.
    + rewrite IH. simpl. rewrite <- app_assoc. reflexivity.
Qed.

Lemma rev_cons_nonempty (c : ascii) (cur : list ascii) :
  nonempty (string_of_list_ascii (rev (c :: cur))).
Proof.
  unfold nonempty. intros H.
  apply (f_equal list_ascii_of_string) in H.
  rewrite list_ascii_of_string_of_list_ascii in H. simpl in H.
  destruct (rev cur); discriminate.
Qed.

Lemma scan_nonempty (rest : list ascii) :
  forall k before cur, Forall nonempty (textwrap.scan k before cur rest).
Proof.
  induction rest as [|c rest IH]; intros k before cur.
  - cbn [textwrap.scan]. destruct cur as [|d cur]; constructor; [|constructor].
    apply rev_cons_nonempty.
  - cbn [textwrap.scan].
    match goal with |- context [if ?b then _ else _] => destruct b end.
    + constructor; [apply rev_cons_nonempty | apply IH].
    + apply IH.
Qed.

Lemma split_chunks_join (text : string) : join "" (textwrap._split text) = text.
Proof.
  unfold textwrap._split. rewrite scan_join. simpl.
  apply string_of_list_ascii_of_string.
Qed.

Lemma sep_free_pieces (c : ascii) (l : list string) :
  has_char c (join "" l) = false -> Forall (sep_free c) l.
Proof.
  induction l as [|x l IH]; intros H; [constructor|].
  rewrite join_empty_cons, has_char_append in H.
  apply orb_false_iff in H as [Hx Hl]. constructor; auto.
Qed.

Lemma translate_whitespace_no_nl (s : string) :
  has_char chr_nl (textwrap.translate_whitespace s) = false.
Proof.
  induction s as [|c s IH]; simpl; [reflexivity|].
  rewrite IH, orb_false_r.
  destruct (textwrap.is_whitespace c) eqn:E; [reflexivity|].
  destruct (Ascii.eqb c chr_nl) eqn:E1; [|reflexivity].
  apply Ascii.eqb_eq in E1. subst c. discriminate E.
Qed.

Lemma split_chunks_ok (text : string) :
  Forall nonempty (textwrap._split_chunks text)
  /\ Forall (sep_free chr_nl) (textwrap._split_chunks text).
Proof.
  unfold textwrap._split_chunks. split.
  - apply scan_nonempty.
  - apply sep_free_pieces. rewrite split_chunks_join.
    apply translate_whitespace_no_nl.
Qed.

(** The lines of [textwrap.wrap]: no longer than the width, not empty, and
    free of newlines. *)
Lemma wrap_lines_ok (text : string) (width : Z) :
  0 < width ->
  exists lines,
    textwrap.wrap text width = Ok lines
    /\ Forall (line_ok (sep_free chr_nl) width) lines.
Proof.
  intros Hw. unfold textwrap.wrap, textwrap._wrap_chunks.
  destruct (width <=? 0) eqn:E; [apply Z.leb_le in E; lia|].
  eexists. split; [reflexivity|].
  destruct (split_chunks_ok text) as [Hne Hfree].
  apply wrap_loop_spec; auto; try lia.
  - intros s n m H. apply has_char_substring, H.
  - intros l H. apply has_char_join_empty, H.
Qed.

Lemma lines_of_join (lines : list string) :
  Forall (sep_free chr_nl) lines ->
  split chr_nl (join NL lines) = match lines with [] => [EmptyString] | _ => lines end.
Proof.
  intros H. destruct lines as [|x l]; [reflexivity|].
  apply split_join; [discriminate | exact H].
Qed.

Lemma wrap_text_lines (text : string) (width : Z) :
  0 < width ->
  exists lines,
    wrap_text text width = Ok (join NL lines)
    /\ Forall (line_ok (sep_free chr_nl) width) lines
    /\ split chr_nl (join NL lines)
       = match lines with [] => [EmptyString] | _ => lines end.
Proof.
  intros Hw. destruct (wrap_lines_ok text width Hw) as (lines & Hwrap & Hok).
  exists lines. unfold wrap_text, textwrap.fill. rewrite Hwrap. simpl.
  repeat split; auto. apply lines_of_join.
  apply Forall_impl with (2 := Hok). intros l Hl. apply Hl.
Qed.

(** C6 (amended).  For every text and every width above 0, no line of the
    output of [wrap_text] is longer than [width]: there is no exception for
    long tokens, which are cut to fit. *)
Theorem wrap_text_line_width (text : string) (width : Z) :
  0 < width ->
  exists wrapped,
    wrap_text text width = Ok wrapped
    /\ Forall (fun line => len line <= width) (split chr_nl wrapped).
Proof.
  intros Hw. destruct (wrap_text_lines text width Hw) as (lines & Heq & Hok & Hsplit).
  exists (join NL lines). split; [exact Heq|]. rewrite Hsplit.
  destruct lines as [|x l].
  - constructor; [unfold len; simpl; lia | constructor].
  - apply Forall_impl with (2 := Hok). intros line Hl. apply Hl.
Qed.

Lemma wrap_text_line_width_witness :
  exists wrapped,
    wrap_text "abcdefghij klm" 4 = Ok wrapped
    /\ Forall (fun line => len line <= 4) (split chr_nl wrapped).
Proof. apply (wrap_text_line_width "abcdefghij klm" 4). lia. Defined.

(** C6, as stated, fails: a token with no whitespace that is longer than
    the width does not pass through; it is cut into pieces of the width. *)
Lemma wrap_text_breaks_long_token :
  exists wrapped,
    wrap_text "abcdefghij" 4 = Ok wrapped
    /\ split chr_nl wrapped = ["abcd"; "efgh"; "ij"]
    /\ ~ In "abcdefghij" (split chr_nl wrapped).
Proof.
  eexists. split; [vm_compute; reflexivity|]. split; [reflexivity|].
  simpl. intros [H|[H|[H|[]]]]; discriminate H.
Qed.

(** ** What [_munge_whitespace] does to whitespace *)

Lemma plain_text_append (s t : string) :
  plain_text (s ++ t) = plain_text s && plain_text t.
Proof.
  induction s as [|c s IH]; simpl; [reflexivity|].
  rewrite IH, andb_assoc. reflexivity.
Qed.

Lemma translate_whitespace_plain (s : string) :
  plain_text s = true -> textwrap.translate_whitespace s = s.
Proof.
  induction s as [|c s IH]; simpl; intros H; [reflexivity|].
  apply andb_true_iff in H as [Hc Hs]. rewrite (IH Hs). f_equal.
  destruct (textwrap.is_whitespace c); [|reflexivity].
  simpl in Hc. apply Ascii.eqb_eq in Hc. auto.
Qed.

Lemma expandtabs_plain (s : string) :
  plain_text s = true -> forall col, textwrap.expandtabs_from col s = s.
Proof.
  induction s as [|c s IH]; simpl; intros H col; [reflexivity|].
  apply andb_true_iff in H as [Hc Hs].
  destruct (Ascii.eqb c chr_tab) eqn:E.
  - apply Ascii.eqb_eq in E. subst c. discriminate Hc.
  - destruct (Ascii.eqb c chr_nl || Ascii.eqb c chr_cr); rewrite (IH Hs); reflexivity.
Qed.


Lemma munge_plain (text : string) :
  plain_text text = true -> textwrap._munge_whitespace text = text.
Proof.
  intros H. unfold textwrap._munge_whitespace, textwrap.expandtabs.
  rewrite (expandtabs_plain _ H). apply translate_whitespace_plain, H.
Qed.





(** ** The content client *)

Lemma check_response_outcome (r : response) (items : list (string * json)) :
  response_json r = Ok (JObj items) ->
  check_response r = read_outcome (status_code r) items.
Proof.
  intros H. unfold check_response, read_outcome, api_error_text.
  destruct (status_code r =? 200); simpl; rewrite H; [reflexivity|]. simpl.
  destruct (assoc "message" items); reflexivity.
Qed.

Lemma check_response_undecodable (r : response) (e : exn) :
  response_json r = Raise e -> check_response r = Raise e.
Proof.
  intros H. unfold check_response.
  destruct (status_code r =? 200); simpl; rewrite H; reflexivity.
Qed.

Lemma check_response_not_dict (r : response) (v : json) :
  status_code r <> 200 -> response_json r = Ok v ->
  (forall items, v <> JObj items) ->
  check_response r
  = Raise (AttributeError ("'" ++ type_name v ++ "' object has no attribute 'get'")).
Proof.
  intros Hs H Hv. unfold check_response. apply Z.eqb_neq in Hs. rewrite Hs, H.
  simpl. destruct v; try reflexivity. exfalso. apply (Hv items). reflexivity.
Qed.

(** C3 (amended).  For a response whose body decodes as JSON, each read
    operation raises exactly when the status is not 200 (a 2xx status other
    than 200 raises too), and with status 200 it returns the decoded body.
    For a body that is a JSON object, what is raised is the API error: an
    [Exception] whose text is "API Error (<status>): <message>", where
    <message> is the [message] field of the body formatted as a string, or
    "Unknown error" when the body has no such field.  For a body that decodes
    to anything but an object and a status other than 200, an
    [AttributeError] about [get] is raised in its place.  For a body that
    cannot be decoded, the decoder's exception is raised with any status, 200
    included. *)
Theorem read_operations_error_contract (session : transport) (r : response)
  (page per_page : Z) (strategy user : string) (username slug : json) :
  (forall req, session req = Ok r) ->
  forall outcome : pyres json,
    In outcome [get_contents session page per_page strategy;
                get_user_contents session user page per_page strategy;
                get_content session username slug;
                get_comments session username slug] ->
    (forall body, response_json r = Ok body ->
       ((exists e, outcome = Raise e) <-> status_code r <> 200)
       /\ (status_code r = 200 -> outcome = Ok body))
    /\ (forall items, response_json r = Ok (JObj items) ->
          outcome = read_outcome (status_code r) items
          /\ ((exists msg, outcome = Raise (Exception msg)) <-> status_code r <> 200)
          /\ (status_code r <> 200 ->
              outcome = Raise (Exception (api_error_text (status_code r) items))))
    /\ (forall body, response_json r = Ok body ->
          (forall items, body <> JObj items) ->
          status_code r <> 200 ->
          outcome = Raise (AttributeError ("'" ++ type_name body
                                           ++ "' object has no attribute 'get'")))
    /\ (forall e, response_json r = Raise e -> outcome = Raise e).
Proof.
  intros Hs outcome Hin.
  assert (Hout : outcome = check_response r).
  { destruct Hin as [<-|[<-|[<-|[<-|[]]]]];
      unfold get_contents, get_user_contents, get_content, get_comments;
      rewrite Hs; reflexivity. }
  subst outcome. split; [|split; [|split]].
  - intros body Hbody. unfold check_response. rewrite Hbody.
    destruct (status_code r =? 200) eqn:E; simpl.
    + apply Z.eqb_eq in E. split; [|reflexivity].
      split; [intros [e He]; discriminate He | intros H; contradiction].
    + apply Z.eqb_neq in E.
      destruct (dict_get body "message" (JStr "Unknown error")); simpl;
        (split; [split; [intros _; exact E | intros _; eexists; reflexivity]
                | intros H; contradiction]).
  - intros items Hbody. rewrite (check_response_outcome r items Hbody).
    unfold read_outcome. destruct (status_code r =? 200) eqn:E.
    + apply Z.eqb_eq in E. split; [reflexivity|]. split.
      * split; [intros [msg H]; discriminate H | intros H; contradiction].
      * intros H. contradiction.
    + apply Z.eqb_neq in E. split; [reflexivity|]. split.
      * split; [intros _; exact E | intros _; eexists; reflexivity].
      * intros _. reflexivity.
  - intros body Hbody Hshape Hstatus.
    exact (check_response_not_dict r body Hstatus Hbody Hshape).
  - intros e Hbody. exact (check_response_undecodable r e Hbody).
Qed.

Lemma read_operations_error_contract_witness :
  let r := mk_response 500 (Ok (JObj [("message", JStr "boom")])) in
  get_contents (fun _ => Ok r) 1 10 "relevant"
  = Raise (Exception "API Error (500): boom").
Proof.
  intros r.
  assert (Hstatus : status_code r <> 200) by (simpl; discriminate).
  pose proof (read_operations_error_contract (fun _ => Ok r) r
                1 10 "relevant" "user" (JStr "user") (JStr "slug")
                (fun _ => eq_refl)
                (get_contents (fun _ => Ok r) 1 10 "relevant")
                (or_introl eq_refl))
    as (_ & H & _).
  destruct (H [("message", JStr "boom")] eq_refl) as (_ & _ & Herr).
  exact (Herr Hstatus).
Defined.

(** C3, as stated, fails: a response with the 2xx status 201 makes
    [get_contents] raise. *)
Lemma get_contents_raises_on_201 :
  200 <= 201 < 300
  /\ get_contents (fun _ => Ok (mk_response 201 (Ok (JObj [])))) 1 10 "relevant"
     = Raise (Exception "API Error (201): Unknown error").
Proof. split; [lia | reflexivity]. Qed.

(** ** The view controller: the selection index *)

Lemma feed_of_two_run : update_feed (serve 200 two_items) init_ui = Ok feed_of_two.
Proof. vm_compute. reflexivity. Qed.

Lemma second_selected_down :
  handle_key Down (serve 200 two_items) feed_of_two = Ok second_selected.
Proof. vm_compute. reflexivity. Qed.

Lemma shrunk_feed_down :
  handle_key Down (serve 200 one_item) second_selected = Ok shrunk_feed_state.
Proof. vm_compute. reflexivity. Qed.

Lemma shrunk_feed_reachable : reachable shrunk_feed_state.
Proof.
  apply (reach_key _ _ _ _ (reach_key _ _ _ _ (reach_run _ _ feed_of_two_run)
                              second_selected_down) shrunk_feed_down).
Qed.

(** C1.  The code does not keep the selection index inside the list it has
    just fetched.  After [run] with two items and [down] twice, the second
    refetch returning one item, the index is 1 and the list has one item: the
    [down] handler clamps against the list it held before [update_feed]
    replaces it, and [update_feed] does not clamp again. *)
Theorem selection_index_not_reclamped :
  update_feed (serve 200 two_items) init_ui = Ok feed_of_two
  /\ handle_key Down (serve 200 two_items) feed_of_two = Ok second_selected
  /\ handle_key Down (serve 200 one_item) second_selected = Ok shrunk_feed_state
  /\ view_mode shrunk_feed_state = Feed
  /\ List.length (contents shrunk_feed_state) = 1%nat
  /\ selected_index shrunk_feed_state = 1
  /\ ~ (0 <= selected_index shrunk_feed_state
        <= Z.of_nat (List.length (contents shrunk_feed_state)) - 1).
Proof.
  assert (Hlen : List.length (contents shrunk_feed_state) = 1%nat)
    by (vm_compute; reflexivity).
  assert (Hidx : selected_index shrunk_feed_state = 1) by (vm_compute; reflexivity).
  split; [exact feed_of_two_run|].
  split; [exact second_selected_down|].
  split; [exact shrunk_feed_down|].
  split; [vm_compute; reflexivity|].
  split; [exact Hlen|]. split; [exact Hidx|].
  rewrite Hlen, Hidx. simpl. lia.
Qed.

(** C10.  In Feed mode, with a list that is not empty and a selection index
    at or beyond its length, the [enter] handler raises [IndexError] from
    [self.contents[self.selected_index]], and nothing in the handler catches
    it: the exception is the outcome of the event. *)
Theorem enter_raises_index_error (session : transport) (self : ui) :
  view_mode self = Feed ->
  contents self <> [] ->
  Z.of_nat (List.length (contents self)) <= selected_index self ->
  handle_key Enter session self = Raise (IndexError "list index out of range").
Proof.
  intros Hmode Hne Hidx. unfold handle_key. rewrite Hmode.
  destruct (contents self) as [|c l] eqn:E; [congruence|].
  unfold py_index.
  destruct (selected_index self <? 0) eqn:E1; [apply Z.ltb_lt in E1; lia|].
  destruct (selected_index self <? Z.of_nat (List.length (c :: l))) eqn:E2.
  - apply Z.ltb_lt in E2. lia.
  - rewrite andb_false_r. reflexivity.
Qed.

Lemma enter_raises_index_error_witness :
  reachable shrunk_feed_state
  /\ handle_key Enter (serve 200 (feed_item "First post" "ann" "first-post"))
       shrunk_feed_state
     = Raise (IndexError "list index out of range").
Proof.
  split; [exact shrunk_feed_reachable|].
  apply enter_raises_index_error.
  - vm_compute. reflexivity.
  - vm_compute. discriminate.
  - vm_compute. discriminate.
Defined.

(** ** The view controller: the display buffers *)

Lemma update_content_view_cases (s s' : ui) :
  update_content_view s = Ok s' ->
  s' = s
  \/ exists page,
       py_index (content_pages s) (current_content_page s) = Ok page
       /\ content_pages s <> []
       /\ s' = set_comments_text "" (set_content_text page s).
Proof.
  unfold update_content_view. intros H.
  destruct (content_pages s) as [|p l] eqn:E.
  - injection H as <-. left. reflexivity.
  - destruct (py_index (p :: l) (current_content_page s)) as [page|e];
      [|discriminate H].
    simpl in H. injection H as <-. right. exists page.
    repeat split. discriminate.
Qed.

Lemma update_content_view_buffers (s s' : ui) :
  update_content_view s = Ok s' ->
  content_or_comments_empty s ->
  content_or_comments_empty s' /\ feed_text s' = feed_text s.
Proof.
  intros H Hinv. destruct (update_content_view_cases s s' H) as [->|(page & _ & _ & ->)].
  - auto.
  - split; [right|]; reflexivity.
Qed.

Lemma feed_entries_prefix (self : ui) (items : list json) :
  forall i feed_text,
    exists more, fst (feed_entries self i items feed_text) = (feed_text ++ more)%list.
Proof.
  induction items as [|c items IH]; intros i ft; simpl.
  - exists []. rewrite app_nil_r. reflexivity.
  - destruct (feed_entry self i c) as [entry|e].
    + destruct (IH (i + 1) (ft ++ entry)%list) as [more Hmore].
      exists (entry ++ more)%list. rewrite Hmore, app_assoc. reflexivity.
    + exists []. rewrite app_nil_r. reflexivity.
Qed.

Lemma join_head_nonempty (sep h : string) (l : list string) :
  nonempty h -> nonempty (join sep (h :: l)).
Proof.
  unfold nonempty. intros Hh. destruct h as [|c h]; [congruence|].
  destruct l; simpl; discriminate.
Qed.

(** What [update_feed] leaves in the state: only the list and the buffers
    change, the two other buffers are emptied and the feed buffer starts with
    the page header. *)
Lemma update_feed_result (session : transport) (s s' : ui) :
  update_feed session s = Ok s' ->
  exists items text,
    s' = set_comments_text "" (set_content_text ""
           (set_feed_text text (set_contents items s)))
    /\ nonempty text.
Proof.
  unfold update_feed. intros H.
  assert (Hhead : forall more,
             nonempty (join NL (("[page]Page " ++ str_of_int (current_page s)
                                 ++ "[/page]") :: more))).
  { intros more. apply join_head_nonempty. discriminate. }
  destruct (v <- get_contents session (current_page s) 10 (current_strategy s) ;;
            iterate v) as [items|e].
  - match type of H with
    | context [feed_entries s 0 items ?h] =>
        destruct (feed_entries_prefix s items 0 h) as [more Hmore];
        destruct (feed_entries s 0 items h) as [lines [e|]]
    end; simpl in Hmore; subst lines.
    + destruct (wrap_text (str_exn e) (terminal_width s - 4)) as [w|e']; [|discriminate H].
      simpl in H. injection H as <-. eexists _, _. split; [reflexivity | first [apply Hhead | unfold nonempty; discriminate]].
    + injection H as <-. eexists _, _. split; [reflexivity | first [apply Hhead | unfold nonempty; discriminate]].
  - destruct (wrap_text (str_exn e) (terminal_width s - 4)) as [w|e']; [|discriminate H].
    simpl in H. injection H as <-. eexists _, _. split; [reflexivity | first [apply Hhead | unfold nonempty; discriminate]].
Qed.

Lemma pages_loop_current_nonempty (height : Z) (lines : list string) :
  forall pages current_page current_height,
    current_page <> [] \/ lines <> [] ->
    snd (pages_loop height lines pages current_page current_height) <> [].
Proof.
  induction lines as [|line lines IH]; intros pages cur ch H; simpl.
  - destruct H; [assumption | congruence].
  - destruct (ch >=? height); apply IH; left; [discriminate|].
    destruct cur; discriminate.
Qed.

Lemma split_into_pages_nonempty (text : string) (width height : Z)
  (pages : list string) :
  split_into_pages text width height = Ok pages -> pages <> [].
Proof.
  unfold split_into_pages. intros H.
  destruct (wrap_text text width) as [wrapped|e]; [|discriminate H]. simpl in H.
  pose proof (pages_loop_current_nonempty height (split chr_nl wrapped) [] [] 0
                (or_intror (split_not_nil chr_nl wrapped))) as Hcur.
  destruct (pages_loop height (split chr_nl wrapped) [] [] 0) as [done cur].
  simpl in Hcur. injection H as <-.
  destruct cur as [|l cur]; [congruence|]. destruct done; discriminate.
Qed.

Lemma content_page_texts_nonempty (title : string) (author date : json)
  (separator : string) (total i : Z) (body_pages : list string) :
  body_pages <> [] ->
  content_page_texts title author date separator total i body_pages <> [].
Proof. destruct body_pages; [congruence | discriminate]. Qed.

Lemma prepare_content_pages_cases (s s' : ui) :
  prepare_content_pages s = Ok s' ->
  (truthy (current_content s) = false /\ s' = s)
  \/ (truthy (current_content s) = true
      /\ exists pages, pages <> [] /\ s' = set_content_pages pages s).
Proof.
  unfold prepare_content_pages. intros H.
  destruct (truthy (current_content s)); simpl in H.
  - right. split; [reflexivity|].
    repeat match type of H with
           | bind ?m _ = _ => destruct m eqn:?; simpl in H; [|discriminate H]
           end.
    injection H as <-. eexists. split; [|reflexivity].
    apply content_page_texts_nonempty.
    eapply split_into_pages_nonempty. eassumption.
  - left. injection H as <-. auto.
Qed.

(** [show_content] ends with an [update_content_view], from a state in
    Content mode and on page 0 whose buffers are still those of the start. *)
Lemma show_content_cases (session : transport) (content : json) (s s' : ui) :
  show_content session content s = Ok s' ->
  exists s2,
    update_content_view s2 = Ok s'
    /\ view_mode s2 = Content
    /\ current_content_page s2 = 0
    /\ (truthy (current_content s2) = true -> content_pages s2 <> [])
    /\ feed_text s2 = feed_text s
    /\ content_text s2 = content_text s
    /\ comments_text s2 = comments_text s.
Proof.
  unfold show_content. intros H.
  destruct (username <- subscript content "owner_username" ;;
            slug <- subscript content "slug" ;;
            get_content session username slug) as [full_content|e].
  - destruct (prepare_content_pages
                (set_current_content full_content
                   (set_current_content_page 0 (set_view_mode Content s))))
      as [self_b|e] eqn:Hprep.
    + assert (Hb : view_mode self_b = Content /\ current_content_page self_b = 0
                   /\ (truthy (current_content self_b) = true ->
                       content_pages self_b <> [])
                   /\ feed_text self_b = feed_text s
                   /\ content_text self_b = content_text s
                   /\ comments_text self_b = comments_text s
                   /\ terminal_width self_b = terminal_width s).
      { destruct (prepare_content_pages_cases _ _ Hprep)
          as [[Hf ->]|[Ht (pages & Hne & ->)]]; simpl in *.
        - repeat split. rewrite Hf. discriminate.
        - repeat split. intros _. exact Hne. }
      destruct Hb as (B1 & B2 & B3 & B4 & B5 & B6 & B7).
      destruct (update_content_view self_b) as [self_c|e] eqn:Hview.
      * injection H as <-. exists self_b. repeat split; auto.
      * destruct (wrap_text (str_exn e) (terminal_width self_b - 4)) as [w|e'];
          [|discriminate H].
        simpl in H. eexists. split; [exact H|]. simpl.
        repeat split; auto. discriminate.
    + destruct (wrap_text (str_exn e) _) as [w|e']; [|discriminate H].
      simpl in H. eexists. split; [exact H|]. simpl.
      repeat split; auto. discriminate.
  - destruct (wrap_text (str_exn e) _) as [w|e']; [|discriminate H].
    simpl in H. eexists. split; [exact H|]. simpl.
    repeat split; auto. discriminate.
Qed.

Lemma show_comments_cases (session : transport) (s s' : ui) :
  show_comments session s = Ok s' ->
  (truthy (current_content s) = false /\ s' = s)
  \/ (truthy (current_content s) = true
      /\ exists text,
           s' = set_content_text "" (set_comments_text text (set_view_mode Comments s))).
Proof.
  unfold show_comments. intros H.
  destruct (truthy (current_content s)); simpl in H.
  - right. split; [reflexivity|].
    match type of H with
    | bind ?m _ = _ => destruct m; simpl in H; [|discriminate H]
    end.
    injection H as <-. eexists. reflexivity.
  - left. injection H as <-. auto.
Qed.

Lemma update_feed_buffers (session : transport) (s s' : ui) :
  update_feed session s = Ok s' ->
  content_text s' = EmptyString /\ comments_text s' = EmptyString
  /\ nonempty (feed_text s').
Proof.
  intros H. destruct (update_feed_result _ _ _ H) as (items & text & -> & Hne).
  repeat split. exact Hne.
Qed.

Lemma show_content_buffers (session : transport) (content : json) (s s' : ui) :
  show_content session content s = Ok s' ->
  content_or_comments_empty s ->
  content_or_comments_empty s' /\ feed_text s' = feed_text s.
Proof.
  intros H Hinv.
  destruct (show_content_cases _ _ _ _ H) as (s2 & Hv & _ & _ & _ & Hf & Hc & Hm).
  rewrite <- Hf. apply (update_content_view_buffers _ _ Hv).
  unfold content_or_comments_empty in *. rewrite Hc, Hm. exact Hinv.
Qed.

Lemma show_comments_buffers (session : transport) (s s' : ui) :
  show_comments session s = Ok s' ->
  content_or_comments_empty s ->
  content_or_comments_empty s' /\ feed_text s' = feed_text s.
Proof.
  intros H Hinv.
  destruct (show_comments_cases _ _ _ H) as [[_ ->]|[_ (text & ->)]];
    [auto | split; [left|]; reflexivity].
Qed.

(** In every reachable state the feed buffer holds text and one of the two
    other buffers is empty. *)
Lemma reachable_buffers (s : ui) :
  reachable s -> content_or_comments_empty s /\ nonempty (feed_text s).
Proof.
  induction 1 as [session s H|s k session s' _ [IHc IHf] H].
  - apply update_feed_buffers in H. destruct H as (H1 & H2 & H3).
    split; [left; exact H1 | exact H3].
  - assert (Hfeed : forall s0, update_feed session s0 = Ok s' ->
                      content_or_comments_empty s' /\ nonempty (feed_text s')).
    { intros s0 H0. apply update_feed_buffers in H0. destruct H0 as (H1 & H2 & H3).
      split; [left; exact H1 | exact H3]. }
    assert (Hview : forall s0, update_content_view s0 = Ok s' ->
                      content_text s0 = content_text s ->
                      comments_text s0 = comments_text s ->
                      feed_text s0 = feed_text s ->
                      content_or_comments_empty s' /\ nonempty (feed_text s')).
    { intros s0 H0 E1 E2 E3.
      destruct (update_content_view_buffers s0 s' H0) as [H1 H2].
      - unfold content_or_comments_empty. rewrite E1, E2. exact IHc.
      - split; [exact H1 | rewrite H2, E3; exact IHf]. }
    assert (Hsame : Ok s = Ok s' ->
                    content_or_comments_empty s' /\ nonempty (feed_text s')).
    { intros E. injection E as <-. auto. }
    assert (Hcomments : show_comments session s = Ok s' ->
                        content_or_comments_empty s' /\ nonempty (feed_text s')).
    { intros E. destruct (show_comments_buffers _ _ _ E IHc) as [H1 H2].
      split; [exact H1 | rewrite H2; exact IHf]. }
    unfold handle_key in H.
    destruct k, (view_mode s); auto;
      try (apply (Hfeed _ H)); try (apply (Hview _ H); reflexivity).
    + destruct (current_page s >? 1); [apply (Hfeed _ H) | apply Hsame, H].
    + destruct (contents s) as [|c l]; [apply Hsame, H|].
      destruct (py_index (c :: l) (selected_index s)) as [content|e];
        [|discriminate H].
      simpl in H. destruct (show_content_buffers _ _ _ _ H IHc) as [H1 H2].
      split; [exact H1 | rewrite H2; exact IHf].
Qed.

(** C2 (amended).  The buffer-updating operations keep at most one of the
    content and comments buffers non-empty: [update_feed] empties both,
    [update_content_view] and [show_content] empty the comments buffer when
    they write the content buffer, and [show_comments] empties the content
    buffer.  None of the last three touches the feed buffer, which keeps the
    text of the last [update_feed] (never empty) while another view is shown. *)
Theorem buffers_after_update (session : transport) (content : json) (s : ui) :
  content_or_comments_empty s ->
  (forall s', update_feed session s = Ok s' ->
              content_text s' = EmptyString /\ comments_text s' = EmptyString
              /\ nonempty (feed_text s'))
  /\ (forall s', update_content_view s = Ok s' ->
                 content_or_comments_empty s' /\ feed_text s' = feed_text s)
  /\ (forall s', show_content session content s = Ok s' ->
                 content_or_comments_empty s' /\ feed_text s' = feed_text s)
  /\ (forall s', show_comments session s = Ok s' ->
                 content_or_comments_empty s' /\ feed_text s' = feed_text s).
Proof.
  intros Hinv. repeat apply conj; intros s' H.
  - apply (update_feed_buffers _ _ _ H).
  - apply (update_content_view_buffers _ _ H Hinv).
  - apply (show_content_buffers _ _ _ _ H Hinv).
  - apply (show_comments_buffers _ _ _ H Hinv).
Qed.

Lemma article_open_enter :
  handle_key Enter (serve 200 article) feed_of_two = Ok article_open.
Proof. vm_compute. reflexivity. Qed.

Lemma buffers_after_update_witness :
  content_or_comments_empty article_open
  /\ (forall s', update_content_view article_open = Ok s' ->
                 content_or_comments_empty s'
                 /\ feed_text s' = feed_text article_open).
Proof.
  assert (H : content_or_comments_empty article_open) by (right; vm_compute; reflexivity).
  split; [exact H|].
  apply (buffers_after_update (serve 200 article) article article_open H).
Defined.

(** C2, as stated, fails: after [run] and [enter] on a feed entry, which
    calls [show_content], the feed buffer and the content buffer both hold
    text. *)
Lemma feed_and_content_both_nonempty :
  update_feed (serve 200 two_items) init_ui = Ok feed_of_two
  /\ handle_key Enter (serve 200 article) feed_of_two = Ok article_open
  /\ feed_text article_open <> EmptyString
  /\ content_text article_open <> EmptyString
  /\ ~ at_most_one_buffer article_open.
Proof.
  assert (Hf : feed_text article_open <> EmptyString) by (vm_compute; discriminate).
  assert (Hc : content_text article_open <> EmptyString) by (vm_compute; discriminate).
  split; [exact feed_of_two_run|]. split; [exact article_open_enter|].
  split; [exact Hf|]. split; [exact Hc|].
  unfold at_most_one_buffer. intros [[H _]|[[H _]|[H _]]]; congruence.
Qed.

(** ** The view controller: the state machine *)

Lemma py_index_in_range {A : Type} (l : list A) (i : Z) :
  0 <= i < Z.of_nat (List.length l) ->
  exists x, py_index l i = Ok x /\ nth_error l (Z.to_nat i) = Some x.
Proof.
  intros H. unfold py_index.
  destruct (i <? 0) eqn:E; [apply Z.ltb_lt in E; lia|].
  destruct (0 <=? i) eqn:E1; [|apply Z.leb_gt in E1; lia].
  destruct (i <? Z.of_nat (List.length l)) eqn:E2; [|apply Z.ltb_ge in E2; lia].
  simpl. destruct (nth_error l (Z.to_nat i)) as [x|] eqn:E3; [eauto|].
  apply nth_error_None in E3. lia.
Qed.

Lemma update_feed_pages_inv (session : transport) (s s' : ui) :
  update_feed session s = Ok s' ->
  current_content s' = current_content s
  /\ content_pages s' = content_pages s
  /\ current_content_page s' = current_content_page s
  /\ view_mode s' = view_mode s.
Proof.
  intros H. destruct (update_feed_result _ _ _ H) as (items & text & -> & _).
  repeat split.
Qed.

Lemma update_content_view_pages_inv (s s' : ui) :
  update_content_view s = Ok s' ->
  current_content s' = current_content s
  /\ content_pages s' = content_pages s
  /\ current_content_page s' = current_content_page s
  /\ view_mode s' = view_mode s.
Proof.
  intros H. destruct (update_content_view_cases _ _ H) as [->|(page & _ & _ & ->)];
    repeat split.
Qed.

Lemma handle_key_pages_inv (k : key) (session : transport) (s s' : ui) :
  pages_inv s -> handle_key k session s = Ok s' -> pages_inv s'.
Proof.
  intros (I1 & I2 & I3) H. unfold handle_key in H. unfold pages_inv.
  assert (Hmode : exists m, view_mode s = m) by eauto. destruct Hmode as [m Hmode].
  rewrite Hmode in H.
  assert (Hfeed : forall s0,
             update_feed session s0 = Ok s' ->
             current_content s0 = current_content s ->
             content_pages s0 = content_pages s ->
             current_content_page s0 = current_content_page s ->
             view_mode s0 = Feed ->
             (truthy (current_content s') = true -> content_pages s' <> [])
             /\ (content_pages s' <> [] ->
                 0 <= current_content_page s'
                 < Z.of_nat (List.length (content_pages s')))
             /\ (view_mode s' = Comments -> truthy (current_content s') = true)).
  { intros s0 H0 E1 E2 E3 E4. apply update_feed_pages_inv in H0.
    destruct H0 as (-> & -> & -> & ->). rewrite E1, E2, E3, E4.
    split; [auto | split; [auto | intros; discriminate]]. }
  assert (Hview : forall s0,
             update_content_view s0 = Ok s' ->
             current_content s0 = current_content s ->
             content_pages s0 = content_pages s ->
             (content_pages s <> [] ->
              0 <= current_content_page s0 < Z.of_nat (List.length (content_pages s))) ->
             view_mode s0 = Content ->
             (truthy (current_content s') = true -> content_pages s' <> [])
             /\ (content_pages s' <> [] ->
                 0 <= current_content_page s'
                 < Z.of_nat (List.length (content_pages s')))
             /\ (view_mode s' = Comments -> truthy (current_content s') = true)).
  { intros s0 H0 E1 E2 E3 E4. apply update_content_view_pages_inv in H0.
    destruct H0 as (-> & -> & -> & ->). rewrite E1, E2, E4.
    split; [auto | split; [auto | intros; discriminate]]. }
  assert (Hsame : Ok s = Ok s' ->
             (truthy (current_content s') = true -> content_pages s' <> [])
             /\ (content_pages s' <> [] ->
                 0 <= current_content_page s'
                 < Z.of_nat (List.length (content_pages s')))
             /\ (view_mode s' = Comments -> truthy (current_content s') = true)).
  { intros E. injection E as <-. auto. }
  assert (Hcomments :
             show_comments session s = Ok s' ->
             (truthy (current_content s') = true -> content_pages s' <> [])
             /\ (content_pages s' <> [] ->
                 0 <= current_content_page s'
                 < Z.of_nat (List.length (content_pages s')))
             /\ (view_mode s' = Comments -> truthy (current_content s') = true)).
  { intros E. destruct (show_comments_cases _ _ _ E) as [[_ ->]|[Ht (text & ->)]];
      simpl; auto. }
  destruct k, m; auto.
  - apply (Hfeed _ H); auto.
  - apply (Hview _ H); auto. simpl. intros Hne. specialize (I2 Hne). lia.
  - apply (Hfeed _ H); auto.
  - apply (Hview _ H); auto. simpl. intros Hne. specialize (I2 Hne). lia.
  - destruct (current_page s >? 1); [apply (Hfeed _ H) | apply Hsame]; auto.
  - apply (Hfeed _ H); auto.
  - destruct (contents s) as [|c l]; [apply Hsame, H|].
    destruct (py_index (c :: l) (selected_index s)) as [content|e];
      [|discriminate H].
    simpl in H.
    destruct (show_content_cases _ _ _ _ H) as (s2 & Hv & V1 & V2 & V3 & _).
    apply update_content_view_pages_inv in Hv. destruct Hv as (-> & -> & -> & ->).
    rewrite V1, V2. split; [auto | split; [|intros; discriminate]].
    destruct (content_pages s2); [congruence | simpl; lia].
  - apply (Hfeed _ H); auto.
  - apply (Hview _ H); auto.
Qed.

Lemma reachable_pages_inv (s : ui) : reachable s -> pages_inv s.
Proof.
  induction 1 as [session s H|s k session s' _ IH H].
  - apply update_feed_pages_inv in H. destruct H as (H1 & H2 & H3 & H4).
    unfold pages_inv. rewrite H1, H2, H3, H4. simpl.
    repeat split; try discriminate; congruence.
  - apply (handle_key_pages_inv k session s s' IH H).
Qed.

(** C9.  From a state of the Comments view, [escape] returns to the Article
    view and shows the page at the article page index, which is the index held
    before the Comments view was entered: entering the view ([enter] or [c] on
    an article) leaves the index and the pages as they are, and so does every
    key pressed inside the view.  [escape] in the Feed view changes nothing,
    and [up] on page 0 of an article leaves the page index at 0. *)
Theorem comments_escape_returns_to_page (s : ui) (session : transport) :
  reachable s ->
  (view_mode s = Comments ->
   exists page,
     0 <= current_content_page s
     /\ nth_error (content_pages s) (Z.to_nat (current_content_page s)) = Some page
     /\ handle_key Escape session s
        = Ok (set_comments_text "" (set_content_text page (set_view_mode Content s))))
  /\ (view_mode s = Content ->
      forall k s', k = Enter \/ k = KeyC ->
        handle_key k session s = Ok s' ->
        current_content_page s' = current_content_page s
        /\ content_pages s' = content_pages s)
  /\ (view_mode s = Comments ->
      forall k, k <> Escape -> handle_key k session s = Ok s)
  /\ (view_mode s = Feed -> handle_key Escape session s = Ok s)
  /\ (view_mode s = Content -> current_content_page s = 0 ->
      exists s', handle_key Up session s = Ok s' /\ current_content_page s' = 0).
Proof.
  intros Hreach. destruct (reachable_pages_inv s Hreach) as (I1 & I2 & I3).
  repeat apply conj.
  - intros Hmode. specialize (I2 (I1 (I3 Hmode))).
    destruct (py_index_in_range _ _ I2) as (page & Hidx & Hnth).
    exists page. repeat split; [lia | exact Hnth |].
    unfold handle_key, update_content_view. rewrite Hmode. simpl.
    destruct (content_pages s) as [|p l] eqn:E; [simpl in I2; lia|].
    rewrite Hidx. reflexivity.
  - intros Hmode k s' Hk H.
    assert (Hc : show_comments session s = Ok s').
    { unfold handle_key in H. rewrite Hmode in H. destruct Hk as [->| ->]; exact H. }
    destruct (show_comments_cases _ _ _ Hc) as [[_ ->]|[_ (text & ->)]]; auto.
  - intros Hmode k Hk. unfold handle_key. rewrite Hmode.
    destruct k; try reflexivity. congruence.
  - intros Hmode. unfold handle_key. rewrite Hmode. reflexivity.
  - intros Hmode Hzero. unfold handle_key. rewrite Hmode, Hzero. simpl.
    unfold update_content_view. simpl.
    destruct (content_pages s) as [|p l] eqn:E; [eexists; split; [reflexivity|]; reflexivity|].
    eexists. split; reflexivity.
Qed.

Lemma comments_open_enter :
  handle_key Enter (serve 200 one_comment) article_open = Ok comments_open.
Proof. vm_compute. reflexivity. Qed.

Lemma comments_open_reachable : reachable comments_open.
Proof.
  apply (reach_key _ _ _ _ (reach_key _ _ _ _ (reach_run _ _ feed_of_two_run)
                              article_open_enter) comments_open_enter).
Qed.

Lemma comments_escape_returns_to_page_witness :
  reachable comments_open
  /\ view_mode comments_open = Comments
  /\ exists page,
       0 <= current_content_page comments_open
       /\ nth_error (content_pages comments_open)
            (Z.to_nat (current_content_page comments_open)) = Some page
       /\ handle_key Escape (serve 200 two_items) comments_open
          = Ok (set_comments_text ""
                  (set_content_text page (set_view_mode Content comments_open))).
Proof.
  assert (Hmode : view_mode comments_open = Comments) by (vm_compute; reflexivity).
  split; [exact comments_open_reachable|]. split; [exact Hmode|].
  apply (comments_escape_returns_to_page comments_open (serve 200 two_items)
           comments_open_reachable).
  exact Hmode.
Defined.

(** ** A text that fits on one line is wrapped to itself *)

Lemma fit_all (width : Z) (chunks : list string) :
  forall cur_line,
    total_len cur_line + total_len chunks <= width ->
    textwrap.fit width cur_line (total_len cur_line) chunks
    = ((cur_line ++ chunks)%list, total_len cur_line + total_len chunks, []).
Proof.
  induction chunks as [|c below IH]; intros cl H; simpl.
  - rewrite app_nil_r, Z.add_0_r. reflexivity.
  - simpl in H. pose proof (total_len_nonneg below).
    destruct (total_len cl + len c <=? width) eqn:E; [|apply Z.leb_gt in E; lia].
    assert (Hsum : total_len (cl ++ [c]) = total_len cl + len c).
    { rewrite total_len_app. simpl. lia. }
    rewrite <- Hsum, IH by lia. rewrite <- app_assoc, Hsum. simpl.
    f_equal. f_equal. lia.
Qed.

Lemma join_empty_app (l1 l2 : list string) :
  join "" (l1 ++ l2) = join "" l1 ++ join "" l2.
Proof.
  induction l1 as [|x l1 IH]; [reflexivity|].
  change ((x :: l1) ++ l2)%list with (x :: (l1 ++ l2))%list.
  rewrite !join_empty_cons, IH.
  induction x as [|c x IHx]; simpl; [reflexivity | rewrite IHx; reflexivity].
Qed.

Lemma ends_in_nonspace_append (a b : string) :
  nonempty b -> ends_in_nonspace (a ++ b) = ends_in_nonspace b.
Proof.
  intros Hb. induction a as [|c a IH]; [reflexivity|].
  simpl append. simpl ends_in_nonspace.
  destruct (a ++ b) as [|d r] eqn:E; [|exact IH].
  destruct a; simpl in E; [congruence | discriminate].
Qed.

Lemma ends_in_nonspace_strip (s : string) :
  ends_in_nonspace s = true -> strip_is_empty s = false.
Proof.
  induction s as [|c s IH]; [discriminate|].
  simpl. destruct s as [|d s].
  - intros H. apply negb_true_iff in H. rewrite H. reflexivity.
  - intros H. rewrite (IH H). apply andb_false_r.
Qed.

Lemma wrap_loop_nil (fuel : nat) (width : Z) (lines : list string) :
  textwrap.wrap_loop fuel width [] lines = ([], lines).
Proof. destruct fuel; reflexivity. Qed.

Lemma wrap_text_one_line (text : string) (width : Z) :
  plain_text text = true -> ends_in_nonspace text = true -> len text <= width ->
  wrap_text text width = Ok text.
Proof.
  intros Hplain Hend Hlen.
  assert (Hw : 0 < width).
  { destruct text; [discriminate|]. unfold len in Hlen. simpl in Hlen. lia. }
  unfold wrap_text, textwrap.fill, textwrap.wrap, textwrap._wrap_chunks,
    textwrap._split_chunks.
  destruct (width <=? 0) eqn:E; [apply Z.leb_le in E; lia|].
  rewrite (munge_plain _ Hplain).
  pose proof (split_chunks_join text) as Hjoin.
  pose proof (scan_nonempty (list_ascii_of_string text) textwrap.KWord [] []) as Hne.
  fold (textwrap._split text) in Hne.
  destruct (textwrap._split text) as [|c0 l0] eqn:Hchunks.
  { simpl in Hjoin. subst text. discriminate. }
  assert (Hnil : c0 :: l0 <> []) by discriminate.
  destruct (exists_last Hnil) as (front & last_chunk & Hsplit).
  assert (Hlast : strip_is_empty last_chunk = false).
  { apply ends_in_nonspace_strip. rewrite <- Hend, <- Hjoin, Hsplit, join_empty_app.
    symmetry. simpl (join "" [last_chunk]). apply ends_in_nonspace_append.
    rewrite Hsplit in Hne. apply Forall_app in Hne as [_ Hne].
    inversion Hne; assumption. }
  assert (Htotal : total_len (c0 :: l0) <= width).
  { rewrite <- len_join_empty, Hjoin. exact Hlen. }
  assert (Hstep : textwrap.wrap_step width (c0 :: l0) [] = ([], [text])).
  { unfold textwrap.wrap_step. cbn [textwrap.drop_leading].
    change 0 with (total_len []). rewrite fit_all by (simpl total_len in *; lia).
    cbn [app textwrap.long_word]. rewrite Hsplit, drop_trailing_app, Hlast.
    rewrite <- Hsplit. cbn [textwrap.push_line app]. rewrite Hjoin. reflexivity. }
  cbn [textwrap.chunks_size fold_right Nat.add textwrap.wrap_loop].
  rewrite Hstep, wrap_loop_nil. reflexivity.
Qed.

(** ** The error block of the feed *)

Lemma prefix_refl (m : string) : prefix m m = true.
Proof.
  induction m as [|c m IH]; simpl; [reflexivity|].
  destruct (ascii_dec c c); [exact IH | congruence].
Qed.

Lemma contains_refl (m : string) : contains m m = true.
Proof.
  destruct m as [|c m]; [reflexivity|].
  cbn [contains]. rewrite prefix_refl. reflexivity.
Qed.

Lemma contains_append_r (m a b : string) :
  contains m b = true -> contains m (a ++ b) = true.
Proof.
  intros H. induction a as [|c a IH]; [exact H|].
  simpl. rewrite IH. apply orb_true_r.
Qed.

Lemma prefix_append_l (m : string) :
  forall a b, prefix m a = true -> prefix m (a ++ b) = true.
Proof.
  induction m as [|c m IH]; intros a b H.
  - destruct (a ++ b); reflexivity.
  - destruct a as [|d a]; [discriminate H|]. simpl in H |- *.
    destruct (ascii_dec c d); [apply IH, H | discriminate H].
Qed.

Lemma contains_append_l (m a b : string) :
  contains m a = true -> contains m (a ++ b) = true.
Proof.
  induction a as [|c a IH]; intros H.
  - simpl in H. rewrite orb_false_r in H.
    destruct m; [destruct b; reflexivity | discriminate H].
  - cbn [contains] in H. apply orb_true_iff in H as [H|H].
    + change (String c a ++ b) with (String c (a ++ b)). cbn [contains].
      change (String c (a ++ b)) with (String c a ++ b).
      rewrite (prefix_append_l _ _ _ H). reflexivity.
    + change (String c a ++ b) with (String c (a ++ b)). cbn [contains].
      rewrite (IH H). apply orb_true_r.
Qed.

Lemma contains_join (m sep x : string) (l : list string) :
  In x l -> contains m x = true -> contains m (join sep l) = true.
Proof.
  intros Hin Hx. induction l as [|y l IH]; [contradiction|].
  destruct l as [|z l].
  - destruct Hin as [->|[]]. exact Hx.
  - change (join sep (y :: z :: l)) with (y ++ sep ++ join sep (z :: l)).
    destruct Hin as [->|Hin].
    + apply contains_append_l, Hx.
    + apply contains_append_r, contains_append_r, IH, Hin.
Qed.

Lemma plain_text_uint (d : Decimal.uint) :
  plain_text (NilEmpty.string_of_uint d) = true.
Proof. induction d; simpl; auto. Qed.

Lemma plain_text_str_of_int (n : Z) : plain_text (str_of_int n) = true.
Proof.
  unfold str_of_int. destruct (Z.to_int n); simpl; apply plain_text_uint.
Qed.

Lemma get_contents_feed_request (session : transport) (self : ui) :
  get_contents session (current_page self) 10 (current_strategy self)
  = (r <- session (feed_request self) ;; check_response r).
Proof. reflexivity. Qed.

(** C8 (amended).  When the feed fetch of [update_feed] fails with an API
    error (a status other than 200, a JSON object as body), the contents list
    becomes empty and the feed buffer becomes the page header, a blank line
    and the error block: the title line, a blank line, the text
    "API Error (<status>): <message>" wrapped to the buffer width, a blank line
    and the hint line.  The buffer holds the literal message text m when the
    whole error text "API Error (<status>): m" is no longer than the buffer
    width, so that it stays on one line, and m has spaces as its only
    whitespace and does not end in one. *)
Theorem feed_fetch_error_block (session : transport) (self : ui) (r : response)
  (items : list (string * json)) :
  session (feed_request self) = Ok r ->
  status_code r <> 200 ->
  response_json r = Ok (JObj items) ->
  4 < terminal_width self ->
  exists wrapped s',
    wrap_text (api_error_text (status_code r) items) (terminal_width self - 4)
    = Ok wrapped
    /\ update_feed session self = Ok s'
    /\ contents s' = []
    /\ feed_text s' = join NL (error_feed_lines self wrapped)
    /\ forall m,
         assoc "message" items = Some (JStr m) ->
         plain_text m = true -> ends_in_nonspace m = true ->
         len (api_error_text (status_code r) items) <= terminal_width self - 4 ->
         wrapped = "API Error (" ++ str_of_int (status_code r) ++ "): " ++ m
         /\ contains m (feed_text s') = true.
Proof.
  intros Hs Hstatus Hbody Hwidth.
  destruct (wrap_text_total (api_error_text (status_code r) items)
              (terminal_width self - 4)) as [wrapped Hwrap]; [lia|].
  assert (Hfetch : get_contents session (current_page self) 10 (current_strategy self)
                   = Raise (Exception (api_error_text (status_code r) items))).
  { rewrite get_contents_feed_request, Hs. simpl.
    rewrite (check_response_outcome r items Hbody). unfold read_outcome.
    apply Z.eqb_neq in Hstatus. rewrite Hstatus. reflexivity. }
  exists wrapped,
    (set_comments_text "" (set_content_text ""
       (set_feed_text (join NL (error_feed_lines self wrapped))
          (set_contents [] self)))).
  split; [exact Hwrap|].
  split.
  { unfold update_feed. rewrite Hfetch.
    cbv beta iota zeta delta [bind str_exn]. rewrite Hwrap. reflexivity. }
  split; [reflexivity|]. split; [reflexivity|].
  intros m Hm Hplain Hend Hfit.
  assert (Htext : api_error_text (status_code r) items
                  = "API Error (" ++ str_of_int (status_code r) ++ "): " ++ m).
  { unfold api_error_text. rewrite Hm. reflexivity. }
  assert (Hne : nonempty m) by (intros ->; discriminate Hend).
  assert (Hone : wrapped = api_error_text (status_code r) items).
  { rewrite wrap_text_one_line in Hwrap.
    - injection Hwrap as <-. reflexivity.
    - rewrite Htext. rewrite !plain_text_append, plain_text_str_of_int, Hplain.
      reflexivity.
    - rewrite Htext.
      rewrite (ends_in_nonspace_append "API Error (" _),
        (ends_in_nonspace_append (str_of_int (status_code r)) _),
        (ends_in_nonspace_append "): " _); auto.
      + destruct m; [congruence | discriminate].
      + destruct (str_of_int (status_code r)); destruct m; try congruence; discriminate.
    - exact Hfit. }
  split; [rewrite Hone; exact Htext|].
  cbn [feed_text set_comments_text set_content_text set_feed_text].
  apply (contains_join m NL wrapped).
  - unfold error_feed_lines. simpl. auto 10.
  - rewrite Hone, Htext.
    apply contains_append_r, contains_append_r, contains_append_r, contains_refl.
Qed.

Lemma feed_fetch_error_block_witness :
  exists s',
    update_feed (serve 500 (JObj [("message", JStr "boom")])) init_ui = Ok s'
    /\ contents s' = []
    /\ feed_text s' = join NL (error_feed_lines init_ui "API Error (500): boom")
    /\ contains "boom" (feed_text s') = true.
Proof.
  destruct (feed_fetch_error_block (serve 500 (JObj [("message", JStr "boom")]))
              init_ui (mk_response 500 (Ok (JObj [("message", JStr "boom")])))
              [("message", JStr "boom")])
    as (wrapped & s' & Hwrap & Hfeed & Hcontents & Htext & Hm).
  - reflexivity.
  - simpl. discriminate.
  - reflexivity.
  - simpl. lia.
  - destruct (Hm "boom") as [Hw Hc].
    + reflexivity.
    + reflexivity.
    + reflexivity.
    + vm_compute. discriminate.
    + exists s'. rewrite Htext, Hw in *. repeat split; assumption.
Defined.

Lemma long_error_feed_run :
  update_feed (serve 500 (JObj [("message", JStr long_message)])) init_ui
  = Ok long_error_feed.
Proof. vm_compute. reflexivity. Qed.

(** C8, as stated, fails for a message that does not fit on one line of the
    buffer: wrapping puts a line break inside it, and the feed buffer does not
    hold the literal text. *)
Lemma long_message_is_broken :
  update_feed (serve 500 (JObj [("message", JStr long_message)])) init_ui
  = Ok long_error_feed
  /\ contents long_error_feed = []
  /\ contains long_message (feed_text long_error_feed) = false.
Proof.
  split; [exact long_error_feed_run|]. split; vm_compute; reflexivity.
Qed.

Lemma fitting_error_feed_run :
  update_feed (serve 500 (JObj [("message", JStr fitting_message)])) init_ui
  = Ok fitting_error_feed.
Proof. vm_compute. reflexivity. Qed.

(** The length that decides is that of the whole error text, not that of the
    message: a message of 70 characters is shorter than the 76 columns of the
    buffer, has single spaces as its only whitespace and does not end in one,
    yet the error text that carries it has 87 characters, is wrapped inside
    the message, and the feed buffer does not hold the message literally. *)
Lemma message_shorter_than_line_is_broken :
  len fitting_message = 70
  /\ terminal_width init_ui - 4 = 76
  /\ plain_text fitting_message = true
  /\ ends_in_nonspace fitting_message = true
  /\ len (api_error_text 500 [("message", JStr fitting_message)]) = 87
  /\ update_feed (serve 500 (JObj [("message", JStr fitting_message)])) init_ui
     = Ok fitting_error_feed
  /\ contents fitting_error_feed = []
  /\ contains fitting_message (feed_text fitting_error_feed) = false.
Proof.
  split; [vm_compute; reflexivity|]. split; [reflexivity|].
  split; [vm_compute; reflexivity|]. split; [vm_compute; reflexivity|].
  split; [vm_compute; reflexivity|]. split; [exact fitting_error_feed_run|].
  split; vm_compute; reflexivity.
Qed.

(** * Further properties *)

(** ** The content client: [login] and the other failures of a read *)

(** X1.  [login] returns [True] exactly for a response with status 200.  For
    any other status it returns [False] without raising and leaves the stored
    token as it was, whatever the body; for status 200 and a JSON object as
    body the token becomes the body's [token] field, or [None] when the body
    has none. *)
Theorem login_outcome (session : post_transport) (self : api)
  (email password : string) (r : response) :
  session (mk_post_request (BASE_URL ++ "/sessions")
             [("email", email); ("password", password)]) = Ok r ->
  (status_code r <> 200 -> login session self email password = Ok (false, self))
  /\ (status_code r = 200 ->
      forall items, response_json r = Ok (JObj items) ->
        login session self email password
        = Ok (true, mk_api match assoc "token" items with
                           | Some t => t
                           | None => JNull
                           end))
  /\ (forall b self',
        login session self email password = Ok (b, self') ->
        (b = true <-> status_code r = 200) /\ (b = false -> self' = self)).
Proof.
  intros Hs. unfold login. rewrite Hs. simpl bind.
  split; [|split].
  - intros H. apply Z.eqb_neq in H. rewrite H. reflexivity.
  - intros H items Hbody. rewrite H, Hbody. simpl.
    destruct (assoc "token" items); reflexivity.
  - intros b self' H. destruct (status_code r =? 200) eqn:E.
    + apply Z.eqb_eq in E.
      destruct (response_json r) as [body|e]; [|discriminate H]. simpl in H.
      destruct (dict_get body "token" JNull) as [t|e]; [|discriminate H].
      simpl in H. injection H as <- <-.
      split; [tauto | discriminate].
    + apply Z.eqb_neq in E. injection H as <- <-.
      split; [split; [discriminate | contradiction] | reflexivity].
Qed.

Lemma login_outcome_witness :
  login (fun _ => Ok (mk_response 401 (Ok (JObj [("message", JStr "no")]))))
    (init_api (Some "old-token")) "a@b.com" "bad"
  = Ok (false, init_api (Some "old-token")).
Proof.
  apply (login_outcome
           (fun _ => Ok (mk_response 401 (Ok (JObj [("message", JStr "no")]))))
           (init_api (Some "old-token")) "a@b.com" "bad"
           (mk_response 401 (Ok (JObj [("message", JStr "no")]))) eq_refl).
  simpl. discriminate.
Defined.

(** X2.  A read operation names the HTTP status in its error only when the
    body of the response is a JSON object.  When the body cannot be decoded,
    the decoder's exception is what the operation raises, with any status;
    when a response that is not 200 has a body that decodes to anything but an
    object, the operation raises an [AttributeError] about [get]. *)
Theorem read_operations_other_failures (session : transport) (r : response)
  (page per_page : Z) (strategy user : string) (username slug : json) :
  (forall req, session req = Ok r) ->
  (forall e, response_json r = Raise e ->
     get_contents session page per_page strategy = Raise e
     /\ get_user_contents session user page per_page strategy = Raise e
     /\ get_content session username slug = Raise e
     /\ get_comments session username slug = Raise e)
  /\ (forall v, status_code r <> 200 -> response_json r = Ok v ->
        (forall items, v <> JObj items) ->
        let e := AttributeError ("'" ++ type_name v
                                 ++ "' object has no attribute 'get'") in
        get_contents session page per_page strategy = Raise e
        /\ get_user_contents session user page per_page strategy = Raise e
        /\ get_content session username slug = Raise e
        /\ get_comments session username slug = Raise e).
Proof.
  intros Hs. unfold get_contents, get_user_contents, get_content, get_comments.
  rewrite !Hs. simpl bind. split.
  - intros e H. rewrite (check_response_undecodable r e H). auto.
  - intros v H1 H2 H3. simpl. rewrite (check_response_not_dict r v H1 H2 H3). auto.
Qed.

Lemma read_operations_other_failures_witness :
  get_contents
    (fun _ => Ok (mk_response 502 (Raise (JSONDecodeError "Expecting value"))))
    1 10 "relevant"
  = Raise (JSONDecodeError "Expecting value").
Proof.
  pose proof (read_operations_other_failures
                (fun _ => Ok (mk_response 502 (Raise (JSONDecodeError "Expecting value"))))
                (mk_response 502 (Raise (JSONDecodeError "Expecting value")))
                1 10 "relevant" "user" (JStr "user") (JStr "slug")
                (fun _ => eq_refl)) as [H _].
  exact (proj1 (H _ eq_refl)).
Defined.

(** ** Wrapping only changes space characters *)

Lemma visible_append (a b : string) : visible (a ++ b) = (visible a ++ visible b)%list.
Proof.
  unfold visible. induction a as [|c a IH]; [reflexivity|].
  simpl. destruct (negb (py_isspace c)); simpl; rewrite IH; reflexivity.
Qed.

Lemma visible_strip_empty (s : string) : strip_is_empty s = true -> visible s = [].
Proof.
  unfold visible. induction s as [|c s IH]; [reflexivity|].
  simpl. intros H. apply andb_true_iff in H as [Hc Hs].
  rewrite Hc. simpl. apply IH, Hs.
Qed.

Lemma visible_all_app (l1 l2 : list string) :
  visible_all (l1 ++ l2) = (visible_all l1 ++ visible_all l2)%list.
Proof. unfold visible_all. rewrite map_app, concat_app. reflexivity. Qed.

Lemma visible_join (sep : string) (l : list string) :
  visible sep = [] -> visible (join sep l) = visible_all l.
Proof.
  intros Hsep. induction l as [|x l IH]; [reflexivity|].
  destruct l as [|y l].
  - unfold visible_all. simpl. rewrite app_nil_r. reflexivity.
  - change (join sep (x :: y :: l)) with (x ++ sep ++ join sep (y :: l)).
    rewrite !visible_append, Hsep, IH. reflexivity.
Qed.

Lemma substring_split (s : string) :
  forall n, substring 0 n s ++ substring n (String.length s - n) s = s.
Proof.
  induction s as [|c s IH]; intros [|n]; simpl; try reflexivity.
  - f_equal. specialize (IH 0%nat). rewrite Nat.sub_0_r in IH.
    destruct s; [reflexivity|]. simpl in IH |- *. injection IH as IH.
    f_equal. exact IH.
  - f_equal. apply IH.
Qed.

Lemma slice_split (s : string) (e : Z) : slice_to s e ++ slice_from s e = s.
Proof. unfold slice_to, slice_from. apply substring_split. Qed.

Lemma drop_leading_visible (chunks lines : list string) :
  visible_all (textwrap.drop_leading chunks lines) = visible_all chunks.
Proof.
  unfold textwrap.drop_leading. destruct chunks as [|c below]; [reflexivity|].
  destruct lines; [reflexivity|].
  destruct (strip_is_empty c) eqn:E; [|reflexivity].
  unfold visible_all. simpl. rewrite (visible_strip_empty c E). reflexivity.
Qed.

Lemma drop_trailing_visible (cur_line : list string) :
  visible_all (textwrap.drop_trailing cur_line) = visible_all cur_line.
Proof.
  destruct cur_line as [|x front _] using rev_ind; [reflexivity|].
  rewrite drop_trailing_app. destruct (strip_is_empty x) eqn:E; [|reflexivity].
  rewrite visible_all_app. unfold visible_all at 3. simpl.
  rewrite (visible_strip_empty x E), app_nil_r. reflexivity.
Qed.

Lemma fit_partition (width : Z) (chunks : list string) :
  forall cur_line cur_len,
    (fst (fst (textwrap.fit width cur_line cur_len chunks))
     ++ snd (textwrap.fit width cur_line cur_len chunks))%list
    = (cur_line ++ chunks)%list.
Proof.
  induction chunks as [|c below IH]; intros cl n; simpl.
  - reflexivity.
  - destruct (n + len c <=? width); [|reflexivity].
    rewrite IH, <- app_assoc. reflexivity.
Qed.

Lemma long_word_visible (chunks cur_line : list string) (cur_len width : Z) :
  (visible_all (snd (textwrap.long_word chunks cur_line cur_len width))
   ++ visible_all (fst (textwrap.long_word chunks cur_line cur_len width)))%list
  = (visible_all cur_line ++ visible_all chunks)%list.
Proof.
  unfold textwrap.long_word. destruct chunks as [|c below]; [reflexivity|].
  destruct (len c >? width); [|reflexivity].
  unfold textwrap._handle_long_word.
  match goal with
  | |- context [slice_from c ?e] => generalize e
  end.
  intros e. cbn [fst snd]. rewrite visible_all_app.
  unfold visible_all. simpl. rewrite app_nil_r, <- !app_assoc. f_equal.
  rewrite app_assoc, <- visible_append, slice_split. reflexivity.
Qed.

Lemma push_line_visible (lines cur_line : list string) :
  visible_all (textwrap.push_line lines cur_line)
  = (visible_all lines ++ visible_all cur_line)%list.
Proof.
  unfold textwrap.push_line. destruct cur_line as [|x l].
  - rewrite app_nil_r. reflexivity.
  - rewrite visible_all_app. f_equal. unfold visible_all at 1.
    cbn [map List.concat]. rewrite app_nil_r.
    apply (visible_join "" (x :: l)). reflexivity.
Qed.

Lemma wrap_step_visible (width : Z) (chunks lines : list string) :
  (visible_all (snd (textwrap.wrap_step width chunks lines))
   ++ visible_all (fst (textwrap.wrap_step width chunks lines)))%list
  = (visible_all lines ++ visible_all chunks)%list.
Proof.
  unfold textwrap.wrap_step.
  pose proof (fit_partition width (textwrap.drop_leading chunks lines) [] 0) as Hfit.
  destruct (textwrap.fit width [] 0 (textwrap.drop_leading chunks lines))
    as [[cur_line cur_len] chunks2].
  simpl in Hfit.
  pose proof (long_word_visible chunks2 cur_line cur_len width) as Hlong.
  destruct (textwrap.long_word chunks2 cur_line cur_len width) as [chunks3 cur_line1].
  simpl in Hlong |- *.
  rewrite push_line_visible, drop_trailing_visible, <- app_assoc, Hlong.
  rewrite <- visible_all_app, Hfit, drop_leading_visible. reflexivity.
Qed.

Lemma wrap_loop_visible (width : Z) (fuel : nat) :
  forall chunks lines,
    (visible_all (snd (textwrap.wrap_loop fuel width chunks lines))
     ++ visible_all (fst (textwrap.wrap_loop fuel width chunks lines)))%list
    = (visible_all lines ++ visible_all chunks)%list.
Proof.
  induction fuel as [|fuel IH]; intros chunks lines.
  - destruct chunks; reflexivity.
  - destruct chunks as [|c below]; [reflexivity|].
    cbn [textwrap.wrap_loop].
    pose proof (wrap_step_visible width (c :: below) lines) as Hstep.
    destruct (textwrap.wrap_step width (c :: below) lines) as [chunks' lines'].
    rewrite IH. exact Hstep.
Qed.

Lemma whitespace_is_space (c : ascii) :
  textwrap.is_whitespace c = true -> py_isspace c = true.
Proof.
  destruct c as [[] [] [] [] [] [] [] []]; vm_compute; congruence.
Qed.

Lemma translate_whitespace_visible (s : string) :
  visible (textwrap.translate_whitespace s) = visible s.
Proof.
  unfold visible. induction s as [|c s IH]; [reflexivity|].
  simpl. rewrite IH.
  destruct (textwrap.is_whitespace c) eqn:E; [|reflexivity].
  rewrite (whitespace_is_space c E). reflexivity.
Qed.

Lemma str_repeat_space_visible (n : Z) : visible (str_repeat " " n) = [].
Proof.
  unfold str_repeat. induction (Z.to_nat n) as [|k IH]; [reflexivity|].
  simpl repeat. destruct (repeat " " k) as [|x l] eqn:E; [reflexivity|].
  change (String.concat "" (" " :: x :: l)) with (" " ++ "" ++ String.concat "" (x :: l)).
  rewrite !visible_append, IH. reflexivity.
Qed.

Lemma expandtabs_visible (s : string) :
  forall col, visible (textwrap.expandtabs_from col s) = visible s.
Proof.
  induction s as [|c s IH]; intros col; [reflexivity|].
  simpl. destruct (Ascii.eqb c chr_tab) eqn:E.
  - apply Ascii.eqb_eq in E. subst c.
    rewrite visible_append, str_repeat_space_visible, IH. reflexivity.
  - destruct (Ascii.eqb c chr_nl || Ascii.eqb c chr_cr);
      change (String c ?x) with (String c EmptyString ++ x);
      rewrite !(visible_append (String c EmptyString)), IH; reflexivity.
Qed.

Lemma split_chunks_visible (text : string) :
  visible_all (textwrap._split_chunks text) = visible text.
Proof.
  unfold textwrap._split_chunks.
  rewrite <- (visible_join "" _ eq_refl), split_chunks_join.
  unfold textwrap._munge_whitespace, textwrap.expandtabs.
  rewrite translate_whitespace_visible. apply expandtabs_visible.
Qed.

(** X3.  For every text and every width above 0, [wrap_text] changes space
    characters only: the characters of the output that are not space
    characters are those of the text, in the same order.  No word is lost,
    repeated or reordered, also when a long word is cut. *)
Theorem wrap_text_keeps_visible_characters (text : string) (width : Z) :
  0 < width ->
  exists wrapped,
    wrap_text text width = Ok wrapped /\ visible wrapped = visible text.
Proof.
  intros Hw. unfold wrap_text, textwrap.fill, textwrap.wrap, textwrap._wrap_chunks.
  destruct (width <=? 0) eqn:E; [apply Z.leb_le in E; lia|].
  eexists. split; [reflexivity|].
  rewrite (visible_join NL _ eq_refl).
  set (chunks := textwrap._split_chunks text).
  pose proof (wrap_loop_visible width (textwrap.chunks_size chunks) chunks []) as Hv.
  destruct (wrap_loop_spec (fun _ => True) (fun _ _ _ _ => I) (fun _ _ => I) width
              ltac:(lia) (textwrap.chunks_size chunks) chunks [] (le_n _)) as [Hdone _].
  - apply split_chunks_ok.
  - apply Forall_forall. auto.
  - constructor.
  - rewrite Hdone in Hv. unfold visible_all at 2 in Hv. simpl in Hv.
    rewrite app_nil_r in Hv. rewrite Hv. apply split_chunks_visible.
Qed.

Lemma wrap_text_keeps_visible_characters_witness :
  exists wrapped,
    wrap_text "abcdefghij  klm" 4 = Ok wrapped
    /\ visible wrapped = visible "abcdefghij  klm".
Proof. apply (wrap_text_keeps_visible_characters "abcdefghij  klm" 4). lia. Defined.

(** ** More on the pagination *)

(** X4.  A text whose only whitespace is the space character, that does not
    end in a space character and that is no longer than the width comes back
    from [wrap_text] unchanged (leading and inner runs of spaces included). *)
Theorem wrap_text_short_text_unchanged (text : string) (width : Z) :
  plain_text text = true -> ends_in_nonspace text = true -> len text <= width ->
  wrap_text text width = Ok text.
Proof. apply wrap_text_one_line. Qed.

Lemma wrap_text_short_text_unchanged_witness :
  wrap_text "  Two  spaces, kept." 76 = Ok "  Two  spaces, kept.".
Proof.
  apply wrap_text_short_text_unchanged; [reflexivity | reflexivity |].
  vm_compute. discriminate.
Defined.

Lemma pages_loop_flush_every_line (height : Z) (lines : list string) :
  height <= 1 -> lines <> [] ->
  forall pages current_page current_height,
    height <= current_height ->
    close_pages (pages_loop height lines pages current_page current_height)
    = (pages ++ join NL current_page :: lines)%list.
Proof.
  intros Hone.
  induction lines as [|line lines IH]; intros Hne pages cur ch Hch; [congruence|].
  simpl pages_loop.
  destruct (ch >=? height) eqn:E;
    [|rewrite Z.geb_leb in E; apply Z.leb_gt in E; lia].
  destruct lines as [|l2 lines].
  - unfold close_pages. simpl. rewrite <- app_assoc. reflexivity.
  - rewrite IH; [|discriminate|simpl; lia].
    rewrite <- app_assoc. reflexivity.
Qed.

(** X5.  With a height of 0 or less, [split_into_pages] starts with an empty
    page and then gives every wrapped line a page of its own. *)
Theorem split_into_pages_without_height (text : string) (width height : Z)
  (wrapped : string) :
  height <= 0 ->
  wrap_text text width = Ok wrapped ->
  split_into_pages text width height = Ok (EmptyString :: split chr_nl wrapped).
Proof.
  intros Hh Hwrap. rewrite (split_into_pages_eq _ _ _ _ Hwrap). f_equal.
  assert (Hone : height <= 1) by lia.
  pose proof (pages_loop_flush_every_line height (split chr_nl wrapped) Hone
                (split_not_nil chr_nl wrapped) [] [] 0 Hh) as H.
  unfold pages_of_lines. unfold close_pages in H.
  destruct (pages_loop height (split chr_nl wrapped) [] [] 0) as [pages cur].
  exact H.
Qed.

Lemma split_into_pages_without_height_witness :
  split_into_pages "one two three" 5 0 = Ok [""; "one"; "two"; "three"].
Proof.
  apply (split_into_pages_without_height "one two three" 5 0
           (join NL ["one"; "two"; "three"])); [lia | vm_compute; reflexivity].
Defined.

(** X6.  For a width above 0 and a height of at least 1, every page that
    [split_into_pages] returns fits the viewport it was cut for: it holds
    between 1 and [height] lines and none of its lines is longer than
    [width]. *)
Theorem split_into_pages_fits_viewport (text : string) (width height : Z) :
  0 < width -> 1 <= height ->
  exists pages,
    split_into_pages text width height = Ok pages
    /\ pages <> []
    /\ Forall (fun page =>
                 1 <= line_count page <= height
                 /\ Forall (fun line => len line <= width) (split chr_nl page))
         pages.
Proof.
  intros Hw Hh.
  destruct (wrap_text_lines text width Hw) as (lines & Hwrap & Hok & Hsplit).
  set (all_lines := split chr_nl (join NL lines)) in *.
  assert (Hwidth : Forall (fun line => len line <= width) all_lines).
  { rewrite Hsplit. destruct lines as [|x l].
    - constructor; [unfold len; simpl; lia | constructor].
    - apply Forall_impl with (2 := Hok). intros line Hl. apply Hl. }
  assert (Hfree : Forall (sep_free chr_nl) all_lines) by apply split_sep_free.
  destruct (pages_of_lines_groups height all_lines Hh) as (groups & Hp & Hc & [_ Hall]).
  exists (pages_of_lines height all_lines).
  split; [apply split_into_pages_eq, Hwrap|]. split.
  - rewrite Hp. intros Hnil. apply map_eq_nil in Hnil. subst groups.
    simpl in Hc. symmetry in Hc. exact (split_not_nil _ _ Hc).
  - rewrite Hp, Forall_map. rewrite Forall_forall in Hall, Hwidth, Hfree |- *.
    intros g Hg.
    assert (Hsub : forall x, In x g -> In x all_lines).
    { intros x Hx. rewrite <- Hc. apply in_concat. exists g. auto. }
    assert (Hlines : split chr_nl (join NL g) = g).
    { apply split_join.
      - intros ->. specialize (Hall _ Hg). simpl in Hall. lia.
      - apply Forall_forall. intros x Hx. apply Hfree, Hsub, Hx. }
    unfold line_count. rewrite Hlines. split; [apply Hall, Hg|].
    apply Forall_forall. intros x Hx. apply Hwidth, Hsub, Hx.
Qed.

Lemma split_into_pages_fits_viewport_witness :
  exists pages,
    split_into_pages "one two three four five six" 9 2 = Ok pages
    /\ pages <> []
    /\ Forall (fun page =>
                 1 <= line_count page <= 2
                 /\ Forall (fun line => len line <= 9) (split chr_nl page))
         pages.
Proof.
  apply (split_into_pages_fits_viewport "one two three four five six" 9 2); lia.
Defined.

(** ** The pages of an article *)

Lemma pages_of_lines_length (height : Z) (lines : list string) :
  1 <= height -> lines <> [] ->
  Z.of_nat (List.length (pages_of_lines height lines))
  = ceil_div (Z.of_nat (List.length lines)) height.
Proof.
  intros Hh Hne.
  destruct (pages_of_lines_groups height lines Hh) as (groups & Hp & Hc & Hok).
  assert (Hg : groups <> []) by (intros ->; simpl in Hc; congruence).
  pose proof (groups_count height groups Hok Hg) as Hcount. rewrite Hc in Hcount.
  destruct (exists_last Hg) as (front & last_group & ->).
  rewrite removelast_last, last_last in Hcount.
  destruct Hok as [_ Hall]. rewrite Forall_forall in Hall.
  assert (Hlast : 1 <= Z.of_nat (List.length last_group) <= height).
  { apply Hall, in_or_app. right. left. reflexivity. }
  rewrite Hp, length_map, length_app. simpl List.length. symmetry.
  apply (ceil_div_unique _ _ _ (Z.of_nat (List.length last_group))); lia.
Qed.

Lemma content_page_texts_length (title : string) (author date : json)
  (separator : string) (total : Z) (body_pages : list string) :
  forall i,
    List.length (content_page_texts title author date separator total i body_pages)
    = List.length body_pages.
Proof.
  induction body_pages as [|p l IH]; intros i; simpl; [reflexivity|].
  rewrite IH. reflexivity.
Qed.

Lemma content_page_texts_nth (title : string) (author date : json)
  (separator : string) (total : Z) (body_pages : list string) :
  forall i k page,
    nth_error body_pages k = Some page ->
    nth_error (content_page_texts title author date separator total i body_pages) k
    = Some (content_page_text title author date separator total
              (i + Z.of_nat k) page).
Proof.
  induction body_pages as [|p l IH]; intros i k page H.
  - destruct k; discriminate H.
  - destruct k as [|k].
    + simpl in H. injection H as ->. simpl nth_error.
      rewrite Z.add_0_r. reflexivity.
    + simpl in H. cbn [content_page_texts nth_error].
      rewrite (IH (i + 1) k page H). do 2 f_equal. lia.
Qed.

Lemma prepare_content_pages_article (self : ui)
  (items : list (string * json)) (t b : string) (author date : json) :
  current_content self = JObj items ->
  assoc "title" items = Some (JStr t) ->
  assoc "owner_username" items = Some author ->
  assoc "created_at" items = Some date ->
  assoc "body" items = Some (JStr b) ->
  4 < terminal_width self -> 6 < terminal_height self ->
  exists title wrapped_body body_pages pages,
    wrap_text t (terminal_width self - 4) = Ok title
    /\ wrap_text b (terminal_width self - 4) = Ok wrapped_body
    /\ split_into_pages b (terminal_width self - 4) (terminal_height self - 6)
       = Ok body_pages
    /\ prepare_content_pages self = Ok (set_content_pages pages self)
    /\ List.length pages = List.length body_pages
    /\ Z.of_nat (List.length pages)
       = ceil_div (line_count wrapped_body) (terminal_height self - 6)
    /\ forall k page,
         nth_error body_pages k = Some page ->
         nth_error pages k
         = Some (content_page_text title author date (separator_line self)
                   (Z.of_nat (List.length body_pages)) (Z.of_nat k) page).
Proof.
  intros Hcc Ht Ha Hd Hb Hw Hh.
  destruct (wrap_text_total t (terminal_width self - 4)) as [title Htitle]; [lia|].
  destruct (wrap_text_total b (terminal_width self - 4)) as [wrapped Hwrap]; [lia|].
  exists title, wrapped,
    (pages_of_lines (terminal_height self - 6) (split chr_nl wrapped)),
    (content_page_texts title author date (separator_line self)
       (Z.of_nat (List.length
                    (pages_of_lines (terminal_height self - 6)
                       (split chr_nl wrapped))))
       0 (pages_of_lines (terminal_height self - 6) (split chr_nl wrapped))).
  split; [exact Htitle|]. split; [exact Hwrap|].
  split; [apply split_into_pages_eq, Hwrap|]. split.
  { unfold prepare_content_pages. rewrite Hcc.
    assert (Htruthy : truthy (JObj items) = true).
    { destruct items; [discriminate Ht | reflexivity]. }
    rewrite Htruthy. cbn [negb]. cbv iota.
    unfold subscript. rewrite Ht, Ha, Hd, Hb.
    cbn [bind as_text]. rewrite Htitle. cbn [bind].
    rewrite (split_into_pages_eq _ _ _ _ Hwrap). reflexivity. }
  split; [apply content_page_texts_length|]. split.
  - rewrite content_page_texts_length. unfold line_count.
    apply pages_of_lines_length; [lia | apply split_not_nil].
  - intros k page H. rewrite (content_page_texts_nth _ _ _ _ _ _ 0 k page H).
    reflexivity.
Qed.

(** X7.  For an open article that has a string title, an owner, a date and a
    string body, on a terminal wider than 4 columns and higher than 6 lines,
    [prepare_content_pages] builds one page text per page of the body, that
    is ceil(n / (height - 6)) of them for a body of n wrapped lines; page k
    (from 0) carries the same header and the footer "Page k+1 of total". *)
Theorem prepare_content_pages_of_article (self : ui)
  (items : list (string * json)) (t b : string) (author date : json) :
  current_content self = JObj items ->
  assoc "title" items = Some (JStr t) ->
  assoc "owner_username" items = Some author ->
  assoc "created_at" items = Some date ->
  assoc "body" items = Some (JStr b) ->
  4 < terminal_width self -> 6 < terminal_height self ->
  exists title wrapped_body body_pages pages,
    wrap_text t (terminal_width self - 4) = Ok title
    /\ wrap_text b (terminal_width self - 4) = Ok wrapped_body
    /\ split_into_pages b (terminal_width self - 4) (terminal_height self - 6)
       = Ok body_pages
    /\ prepare_content_pages self = Ok (set_content_pages pages self)
    /\ List.length pages = List.length body_pages
    /\ Z.of_nat (List.length pages)
       = ceil_div (line_count wrapped_body) (terminal_height self - 6)
    /\ forall k page,
         nth_error body_pages k = Some page ->
         nth_error pages k
         = Some (content_page_text title author date (separator_line self)
                   (Z.of_nat (List.length body_pages)) (Z.of_nat k) page).
Proof. apply prepare_content_pages_article. Qed.

Lemma prepare_content_pages_of_article_witness :
  exists pages,
    prepare_content_pages (set_current_content article init_ui)
    = Ok (set_content_pages pages (set_current_content article init_ui))
    /\ List.length pages = 1%nat.
Proof.
  destruct (prepare_content_pages_of_article (set_current_content article init_ui)
              [("title", JStr "First post"); ("owner_username", JStr "ann");
               ("slug", JStr "first-post"); ("created_at", JStr "2024-01-01");
               ("body", JStr "Hello, world.")]
              "First post" "Hello, world." (JStr "ann") (JStr "2024-01-01"))
    as (title & wrapped & body_pages & pages & _ & _ & Hsplit & Hprep & Hlen & _);
    try reflexivity.
  exists pages. split; [exact Hprep|].
  rewrite Hlen.
  assert (Hb : split_into_pages "Hello, world." 76 18 = Ok ["Hello, world."])
    by (vm_compute; reflexivity).
  change (terminal_width (set_current_content article init_ui) - 4) with 76 in Hsplit.
  change (terminal_height (set_current_content article init_ui) - 6) with 18 in Hsplit.
  rewrite Hb in Hsplit. injection Hsplit as <-. reflexivity.
Defined.

(** ** What the reachable states keep true, and which events can raise *)

Lemma article_shape_update_content_view (s x s' : ui) :
  article_shape s x -> update_content_view x = Ok s' -> article_shape s s'.
Proof.
  intros (cc & pages & ct & mt & ->) H.
  destruct (update_content_view_cases _ _ H) as [->|(page & _ & _ & ->)];
    unfold article_shape; simpl; do 4 eexists; reflexivity.
Qed.

Lemma article_shape_prepare (s x s' : ui) :
  article_shape s x -> prepare_content_pages x = Ok s' -> article_shape s s'.
Proof.
  intros (cc & pages & ct & mt & ->) H.
  destruct (prepare_content_pages_cases _ _ H) as [[_ ->]|[_ (p & _ & ->)]];
    unfold article_shape; simpl; do 4 eexists; reflexivity.
Qed.

Lemma article_shape_set_content_pages (s x : ui) (pages : list string) :
  article_shape s x -> article_shape s (set_content_pages pages x).
Proof. intros (cc & p & ct & mt & ->). unfold article_shape. simpl. do 4 eexists. reflexivity. Qed.

Lemma article_shape_set_current_content (s x : ui) (cc : json) :
  article_shape s x -> article_shape s (set_current_content cc x).
Proof. intros (c & p & ct & mt & ->). unfold article_shape. simpl. do 4 eexists. reflexivity. Qed.

Lemma article_shape_start (s : ui) :
  article_shape s (set_current_content_page 0 (set_view_mode Content s)).
Proof. unfold article_shape. simpl. do 4 eexists. reflexivity. Qed.

Lemma show_content_shape (session : transport) (content : json) (s s' : ui) :
  show_content session content s = Ok s' -> article_shape s s'.
Proof.
  unfold show_content. intros H.
  pose proof (article_shape_start s) as H1.
  destruct (username <- subscript content "owner_username" ;;
            slug <- subscript content "slug" ;;
            get_content session username slug) as [full_content|e].
  - pose proof (article_shape_set_current_content _ _ full_content H1) as Ha.
    destruct (prepare_content_pages
                (set_current_content full_content
                   (set_current_content_page 0 (set_view_mode Content s))))
      as [self_b|e] eqn:Hprep.
    + pose proof (article_shape_prepare _ _ _ Ha Hprep) as Hb.
      destruct (update_content_view self_b) as [self_c|e] eqn:Hview.
      * injection H as <-. apply (article_shape_update_content_view _ _ _ Hb Hview).
      * destruct (wrap_text (str_exn e) _) as [w|e']; [|discriminate H].
        simpl in H.
        apply (article_shape_update_content_view s _ s'
                 (article_shape_set_content_pages _ _ _ Hb) H).
    + destruct (wrap_text (str_exn e) _) as [w|e']; [|discriminate H].
      simpl in H.
      apply (article_shape_update_content_view s _ s'
               (article_shape_set_content_pages _ _ _ Ha) H).
  - destruct (wrap_text (str_exn e) _) as [w|e']; [|discriminate H].
    simpl in H.
    apply (article_shape_update_content_view s _ s'
             (article_shape_set_content_pages _ _ _ H1) H).
Qed.

Lemma handle_key_feed_inv (k : key) (session : transport) (s s' : ui) :
  feed_inv s -> handle_key k session s = Ok s' -> feed_inv s'.
Proof.
  intros (F1 & F2 & F3 & F4 & F5) H. unfold handle_key in H. unfold feed_inv.
  assert (Hfeed : forall s0,
             update_feed session s0 = Ok s' ->
             1 <= current_page s0 -> -1 <= selected_index s0 ->
             terminal_width s0 = terminal_width s ->
             terminal_height s0 = terminal_height s ->
             current_strategy s0 = current_strategy s ->
             1 <= current_page s' /\ -1 <= selected_index s'
             /\ terminal_width s' = 80 /\ terminal_height s' = 24
             /\ current_strategy s' = "relevant").
  { intros s0 H0 E1 E2 E3 E4 E5.
    destruct (update_feed_result _ _ _ H0) as (items & text & -> & _).
    simpl. rewrite E3, E4, E5. auto. }
  assert (Hview : forall s0,
             update_content_view s0 = Ok s' ->
             current_page s0 = current_page s ->
             selected_index s0 = selected_index s ->
             terminal_width s0 = terminal_width s ->
             terminal_height s0 = terminal_height s ->
             current_strategy s0 = current_strategy s ->
             1 <= current_page s' /\ -1 <= selected_index s'
             /\ terminal_width s' = 80 /\ terminal_height s' = 24
             /\ current_strategy s' = "relevant").
  { intros s0 H0 E1 E2 E3 E4 E5.
    destruct (update_content_view_cases _ _ H0) as [->|(page & _ & _ & ->)];
      simpl; rewrite E1, E2, E3, E4, E5; auto. }
  assert (Hsame : Ok s = Ok s' ->
             1 <= current_page s' /\ -1 <= selected_index s'
             /\ terminal_width s' = 80 /\ terminal_height s' = 24
             /\ current_strategy s' = "relevant").
  { intros E. injection E as <-. auto. }
  assert (Hcomments : show_comments session s = Ok s' ->
             1 <= current_page s' /\ -1 <= selected_index s'
             /\ terminal_width s' = 80 /\ terminal_height s' = 24
             /\ current_strategy s' = "relevant").
  { intros E. destruct (show_comments_cases _ _ _ E) as [[_ ->]|[_ (text & ->)]];
      simpl; auto. }
  destruct k, (view_mode s); auto;
    try (apply (Hview _ H); reflexivity).
  - apply (Hfeed _ H); simpl; auto; lia.
  - apply (Hfeed _ H); simpl; auto; lia.
  - destruct (current_page s >? 1) eqn:E; [|apply Hsame, H].
    apply Z.gtb_lt in E. apply (Hfeed _ H); simpl; auto; lia.
  - apply (Hfeed _ H); simpl; auto; lia.
  - destruct (contents s) as [|c l]; [apply Hsame, H|].
    destruct (py_index (c :: l) (selected_index s)) as [content|e];
      [|discriminate H].
    simpl in H. destruct (show_content_shape _ _ _ _ H) as (cc & p & ct & mt & ->).
    simpl. auto.
  - apply (Hfeed _ H); simpl; auto.
Qed.

Lemma reachable_feed_inv (s : ui) : reachable s -> feed_inv s.
Proof.
  induction 1 as [session s H|s k session s' _ IH H].
  - destruct (update_feed_result _ _ _ H) as (items & text & -> & _).
    unfold feed_inv. simpl. repeat split; lia.
  - apply (handle_key_feed_inv k session s s' IH H).
Qed.

Lemma update_feed_total (session : transport) (s : ui) :
  4 < terminal_width s -> exists s', update_feed session s = Ok s'.
Proof.
  intros Hw. unfold update_feed.
  assert (Hwrap : forall e, exists w,
             wrap_text (str_exn e) (terminal_width s - 4) = Ok w).
  { intros e. apply wrap_text_total. lia. }
  destruct (v <- get_contents session (current_page s) 10 (current_strategy s) ;;
            iterate v) as [items|e].
  - destruct (feed_entries s 0 items _) as [lines [e|]].
    + destruct (Hwrap e) as [w ->]. simpl. eauto.
    + eauto.
  - destruct (Hwrap e) as [w ->]. simpl. eauto.
Qed.

Lemma update_content_view_total (s : ui) :
  (content_pages s <> [] ->
   0 <= current_content_page s < Z.of_nat (List.length (content_pages s))) ->
  exists s', update_content_view s = Ok s'.
Proof.
  intros H. unfold update_content_view.
  destruct (content_pages s) as [|p l] eqn:E; [eauto|].
  destruct (py_index_in_range (p :: l) (current_content_page s)) as (x & -> & _).
  - apply H. discriminate.
  - simpl. eauto.
Qed.

Lemma show_content_total (session : transport) (content : json) (s : ui) :
  4 < terminal_width s -> exists s', show_content session content s = Ok s'.
Proof.
  intros Hw. unfold show_content.
  assert (Herr : forall x e,
             article_shape s x ->
             exists s',
               (wrapped_error <- wrap_text (str_exn e) (terminal_width x - 4) ;;
                update_content_view
                  (set_content_pages
                     [join NL ["[title]Error loading content[/title]"; "";
                               wrapped_error; "";
                               "Press Esc to go back to the feed."]] x))
               = Ok s').
  { intros x e (cc & pages & ct & mt & ->). simpl terminal_width.
    destruct (wrap_text_total (str_exn e) (terminal_width s - 4)) as [w ->]; [lia|].
    eexists. reflexivity. }
  pose proof (article_shape_start s) as H1.
  destruct (username <- subscript content "owner_username" ;;
            slug <- subscript content "slug" ;;
            get_content session username slug) as [full_content|e].
  - pose proof (article_shape_set_current_content _ _ full_content H1) as Ha.
    destruct (prepare_content_pages
                (set_current_content full_content
                   (set_current_content_page 0 (set_view_mode Content s))))
      as [self_b|e] eqn:Hprep.
    + pose proof (article_shape_prepare _ _ _ Ha Hprep) as Hb.
      destruct (update_content_view self_b) as [self_c|e]; [eauto|].
      apply (Herr self_b e Hb).
    + apply (Herr _ e Ha).
  - apply (Herr _ e H1).
Qed.

Lemma show_comments_total (session : transport) (s : ui) :
  4 < terminal_width s -> exists s', show_comments session s = Ok s'.
Proof.
  intros Hw. unfold show_comments.
  destruct (truthy (current_content s)); simpl; [|eauto].
  match goal with
  | |- context [match ?m with Ok _ => _ | Raise _ => _ end] => destruct m as [lines|e]
  end.
  - simpl. eauto.
  - destruct (wrap_text_total (str_exn e) (terminal_width s - 4)) as [w ->]; [lia|].
    simpl. eauto.
Qed.

Lemma py_index_raise {A : Type} (l : list A) (i : Z) (e : exn) :
  py_index l i = Raise e -> l <> [] -> -1 <= i ->
  Z.of_nat (List.length l) <= i /\ e = IndexError "list index out of range".
Proof.
  intros H Hne Hi.
  assert (Hlen : 0 < Z.of_nat (List.length l)).
  { destruct l; [congruence | simpl; lia]. }
  unfold py_index in H.
  set (j := if i <? 0 then i + Z.of_nat (List.length l) else i) in *.
  assert (Hj : i < Z.of_nat (List.length l) -> 0 <= j < Z.of_nat (List.length l)).
  { intros Hlt. unfold j. destruct (i <? 0) eqn:E.
    - apply Z.ltb_lt in E. lia.
    - apply Z.ltb_ge in E. lia. }
  assert (Hge : Z.of_nat (List.length l) <= i -> j = i).
  { intros Hle. unfold j. destruct (i <? 0) eqn:E; [apply Z.ltb_lt in E; lia|].
    reflexivity. }
  destruct (Z_lt_le_dec i (Z.of_nat (List.length l))) as [Hlt|Hle].
  - exfalso. specialize (Hj Hlt).
    destruct (0 <=? j) eqn:E1; [|apply Z.leb_gt in E1; lia].
    destruct (j <? Z.of_nat (List.length l)) eqn:E2; [|apply Z.ltb_ge in E2; lia].
    simpl in H. destruct (nth_error l (Z.to_nat j)) as [x|] eqn:E3; [discriminate H|].
    apply nth_error_None in E3. lia.
  - split; [exact Hle|]. rewrite (Hge Hle) in H.
    destruct (i <? Z.of_nat (List.length l)) eqn:E2; [apply Z.ltb_lt in E2; lia|].
    rewrite andb_false_r in H. injection H as <-. reflexivity.
Qed.

(** X8.  In every state reached from [run] by key events the article page
    index is valid for the page list: an open article has at least one page,
    the index lies inside a page list that is not empty, and
    [update_content_view] returns without raising. *)
Theorem article_page_index_valid (s : ui) :
  reachable s ->
  (truthy (current_content s) = true -> content_pages s <> [])
  /\ (content_pages s <> [] ->
      0 <= current_content_page s < Z.of_nat (List.length (content_pages s)))
  /\ exists s', update_content_view s = Ok s'.
Proof.
  intros H. destruct (reachable_pages_inv s H) as (I1 & I2 & _).
  split; [exact I1|]. split; [exact I2|].
  apply update_content_view_total, I2.
Qed.

Lemma article_page_index_valid_witness :
  (truthy (current_content comments_open) = true -> content_pages comments_open <> [])
  /\ (content_pages comments_open <> [] ->
      0 <= current_content_page comments_open
      < Z.of_nat (List.length (content_pages comments_open)))
  /\ exists s', update_content_view comments_open = Ok s'.
Proof. apply (article_page_index_valid comments_open comments_open_reachable). Defined.

(** X9.  In every state reached from [run] by key events the feed page number
    is at least 1, the selection index is at least -1, and the terminal size
    and the strategy are the ones [__init__] set (80 by 24, "relevant"). *)
Theorem feed_cursor_bounds (s : ui) :
  reachable s ->
  1 <= current_page s
  /\ -1 <= selected_index s
  /\ terminal_width s = 80
  /\ terminal_height s = 24
  /\ current_strategy s = "relevant".
Proof. apply reachable_feed_inv. Qed.

Lemma feed_cursor_bounds_witness :
  1 <= current_page shrunk_feed_state
  /\ -1 <= selected_index shrunk_feed_state
  /\ terminal_width shrunk_feed_state = 80
  /\ terminal_height shrunk_feed_state = 24
  /\ current_strategy shrunk_feed_state = "relevant".
Proof. apply (feed_cursor_bounds shrunk_feed_state shrunk_feed_reachable). Defined.

(** X10.  From a state reached from [run] by key events, a key event lets an
    exception escape in one situation only: [enter] in the Feed view with a
    list that is not empty and a selection index at or beyond its length, and
    then the exception is the [IndexError] of the list access.  Every other
    event returns a state: fetch failures are shown, not raised. *)
Theorem only_enter_raises (s : ui) (k : key) (session : transport) (e : exn) :
  reachable s ->
  handle_key k session s = Raise e ->
  k = Enter /\ view_mode s = Feed /\ contents s <> []
  /\ Z.of_nat (List.length (contents s)) <= selected_index s
  /\ e = IndexError "list index out of range".
Proof.
  intros Hreach H.
  destruct (reachable_pages_inv s Hreach) as (_ & I2 & _).
  destruct (reachable_feed_inv s Hreach) as (_ & F2 & F3 & _).
  assert (Hw : 4 < terminal_width s) by lia.
  assert (Hfeed : forall s0, update_feed session s0 = Raise e ->
                    terminal_width s0 = terminal_width s -> False).
  { intros s0 Hr E0. destruct (update_feed_total session s0) as [s' Hs']; [lia|].
    rewrite Hs' in Hr. discriminate Hr. }
  assert (Hview : forall s0, update_content_view s0 = Raise e ->
                    content_pages s0 = content_pages s ->
                    (content_pages s <> [] ->
                     0 <= current_content_page s0
                     < Z.of_nat (List.length (content_pages s))) ->
                    False).
  { intros s0 Hr E0 Hidx.
    destruct (update_content_view_total s0) as [s' Hs'].
    - rewrite E0. exact Hidx.
    - rewrite Hs' in Hr. discriminate Hr. }
  assert (Hcomments : show_comments session s = Raise e -> False).
  { intros Hr. destruct (show_comments_total session s Hw) as [s' Hs'].
    rewrite Hs' in Hr. discriminate Hr. }
  unfold handle_key in H.
  destruct k, (view_mode s) eqn:Hmode; try discriminate H;
    try (exfalso; apply (Hfeed _ H eq_refl));
    try (exfalso; apply (Hcomments H)).
  - exfalso. apply (Hview _ H eq_refl).
    simpl. intros Hne. specialize (I2 Hne). lia.
  - exfalso. apply (Hview _ H eq_refl).
    simpl. intros Hne. specialize (I2 Hne). lia.
  - exfalso. destruct (current_page s >? 1); [|discriminate H].
    apply (Hfeed _ H eq_refl).
  - destruct (contents s) as [|c l] eqn:Hc; [discriminate H|].
    destruct (py_index (c :: l) (selected_index s)) as [content|e0] eqn:Hidx.
    + exfalso. simpl in H.
      destruct (show_content_total session content s Hw) as [s' Hs'].
      rewrite Hs' in H. discriminate H.
    + simpl in H. injection H as <-.
      destruct (py_index_raise _ _ _ Hidx) as [Hlen ->]; [discriminate | exact F2 |].
      repeat split; auto. discriminate.
  - exfalso. apply (Hview _ H eq_refl). exact I2.
Qed.

Lemma only_enter_raises_witness :
  Enter = Enter /\ view_mode shrunk_feed_state = Feed
  /\ contents shrunk_feed_state <> []
  /\ Z.of_nat (List.length (contents shrunk_feed_state))
     <= selected_index shrunk_feed_state
  /\ IndexError "list index out of range" = IndexError "list index out of range".
Proof.
  apply (only_enter_raises shrunk_feed_state Enter (serve 200 article)
           (IndexError "list index out of range") shrunk_feed_reachable).
  vm_compute. reflexivity.
Defined.

(** ** The feed cursor *)

Lemma handle_key_feed_move (session : transport) (s s' : ui) (i : Z) :
  update_feed session (set_selected_index i s) = Ok s' ->
  selected_index s' = i /\ current_page s' = current_page s
  /\ view_mode s' = view_mode s.
Proof.
  intros H. destruct (update_feed_result _ _ _ H) as (items & text & -> & _).
  repeat split.
Qed.

(** X11.  [up] and [down] in the Feed view move a valid selection index by
    one step inside the list held before the refetch ([up] stops at 0, [down]
    at the last entry); the index is therefore valid for the refetched list
    whenever that list is not shorter than the one before. *)
Theorem selection_valid_when_feed_does_not_shrink (k : key) (session : transport)
  (s s' : ui) :
  view_mode s = Feed ->
  0 <= selected_index s < Z.of_nat (List.length (contents s)) ->
  k = Up \/ k = Down ->
  handle_key k session s = Ok s' ->
  selected_index s'
  = match k with
    | Up => Z.max 0 (selected_index s - 1)
    | _ => Z.min (Z.of_nat (List.length (contents s)) - 1) (selected_index s + 1)
    end
  /\ 0 <= selected_index s' < Z.of_nat (List.length (contents s))
  /\ (Z.of_nat (List.length (contents s)) <= Z.of_nat (List.length (contents s')) ->
      0 <= selected_index s' < Z.of_nat (List.length (contents s'))).
Proof.
  intros Hmode Hidx Hk H. unfold handle_key in H. rewrite Hmode in H.
  destruct Hk as [-> | ->];
    destruct (handle_key_feed_move session _ _ _ H) as (-> & _ & _);
    repeat split; lia.
Qed.

Lemma selection_valid_when_feed_does_not_shrink_witness :
  selected_index second_selected = 1
  /\ 0 <= selected_index second_selected < Z.of_nat (List.length (contents feed_of_two)).
Proof.
  assert (Hmode : view_mode feed_of_two = Feed) by (vm_compute; reflexivity).
  assert (Hidx : 0 <= selected_index feed_of_two
                 < Z.of_nat (List.length (contents feed_of_two)))
    by (vm_compute; split; [discriminate | reflexivity]).
  destruct (selection_valid_when_feed_does_not_shrink Down (serve 200 two_items)
              feed_of_two second_selected Hmode Hidx (or_intror eq_refl)
              second_selected_down) as (H1 & H2 & _).
  split; [|exact H2]. rewrite H1. vm_compute. reflexivity.
Defined.

(** X12.  [enter] on a feed entry followed by [escape] comes back to the Feed
    view with the selection index and the page number it left, the article
    and comments buffers empty; the feed itself is fetched again. *)
Theorem enter_then_escape (session1 session2 : transport) (s s1 s2 : ui) :
  view_mode s = Feed ->
  contents s <> [] ->
  handle_key Enter session1 s = Ok s1 ->
  handle_key Escape session2 s1 = Ok s2 ->
  view_mode s1 = Content
  /\ view_mode s2 = Feed
  /\ selected_index s2 = selected_index s
  /\ current_page s2 = current_page s
  /\ content_text s2 = EmptyString
  /\ comments_text s2 = EmptyString
  /\ update_feed session2 (set_view_mode Feed s1) = Ok s2.
Proof.
  intros Hmode Hne H1 H2. unfold handle_key in H1. rewrite Hmode in H1.
  destruct (contents s) as [|c l] eqn:Hc; [congruence|].
  destruct (py_index (c :: l) (selected_index s)) as [content|e]; [|discriminate H1].
  simpl in H1.
  destruct (show_content_shape _ _ _ _ H1) as (cc & pages & ct & mt & ->).
  unfold handle_key in H2. simpl view_mode in H2.
  destruct (update_feed_result _ _ _ H2) as (items & text & Hs2 & _).
  rewrite Hs2. simpl. repeat split. rewrite <- Hs2. exact H2.
Qed.

Lemma enter_then_escape_witness :
  exists s2,
    handle_key Escape (serve 200 two_items) article_open = Ok s2
    /\ view_mode s2 = Feed
    /\ selected_index s2 = selected_index feed_of_two.
Proof.
  destruct (update_feed_total (serve 200 two_items) (set_view_mode Feed article_open))
    as [s2 H2]; [vm_compute; reflexivity|].
  assert (Hesc : handle_key Escape (serve 200 two_items) article_open = Ok s2).
  { unfold handle_key. replace (view_mode article_open) with Content
      by (vm_compute; reflexivity). exact H2. }
  assert (Hmode : view_mode feed_of_two = Feed) by (vm_compute; reflexivity).
  assert (Hne : contents feed_of_two <> []) by (vm_compute; discriminate).
  destruct (enter_then_escape (serve 200 article) (serve 200 two_items)
              feed_of_two article_open s2 Hmode Hne article_open_enter Hesc)
    as (_ & Hv & Hi & _).
  exists s2. repeat split; assumption.
Defined.

(** X13.  In the Feed view [right] goes to the next page and [left] comes
    back: after [right] then [left] the page number is the one before and the
    selection index is 0.  On page 1 (or below) [left] changes nothing and
    fetches nothing. *)
Theorem right_then_left (session1 session2 : transport) (s : ui) :
  view_mode s = Feed ->
  (current_page s <= 1 -> handle_key Left session1 s = Ok s)
  /\ (1 <= current_page s ->
      forall s1 s2,
        handle_key Right session1 s = Ok s1 ->
        handle_key Left session2 s1 = Ok s2 ->
        current_page s1 = current_page s + 1 /\ selected_index s1 = 0
        /\ current_page s2 = current_page s /\ selected_index s2 = 0
        /\ view_mode s2 = Feed).
Proof.
  intros Hmode. split.
  - intros Hp. unfold handle_key. rewrite Hmode.
    destruct (current_page s >? 1) eqn:E; [apply Z.gtb_lt in E; lia | reflexivity].
  - intros Hp s1 s2 H1 H2. unfold handle_key in H1. rewrite Hmode in H1.
    destruct (update_feed_result _ _ _ H1) as (items & text & -> & _).
    unfold handle_key in H2. simpl in H2. rewrite Hmode in H2.
    destruct (current_page s + 1 >? 1) eqn:E;
      [|rewrite Z.gtb_ltb in E; apply Z.ltb_ge in E; lia].
    destruct (update_feed_result _ _ _ H2) as (items2 & text2 & -> & _).
    simpl. rewrite Hmode. repeat split. lia.
Qed.

Lemma right_then_left_witness :
  handle_key Left (serve 200 two_items) feed_of_two = Ok feed_of_two.
Proof.
  apply (right_then_left (serve 200 two_items) (serve 200 two_items) feed_of_two).
  - vm_compute. reflexivity.
  - vm_compute. discriminate.
Defined.

(** ** Rendering the feed *)

Lemma feed_entries_ext (s t : ui) (items : list json) :
  selected_index s = selected_index t ->
  terminal_width s = terminal_width t ->
  forall i lines, feed_entries s i items lines = feed_entries t i items lines.
Proof.
  intros E1 E2. induction items as [|c items IH]; intros i lines; [reflexivity|].
  simpl. unfold feed_entry. rewrite E1, E2.
  destruct (_ <- subscript c "title" ;; _); [apply IH | reflexivity].
Qed.

Lemma with_feed_injective (items items' : list json) (text text' : string) (s : ui) :
  with_feed items text s = with_feed items' text' s -> items = items' /\ text = text'.
Proof.
  unfold with_feed, set_comments_text, set_content_text, set_feed_text, set_contents.
  simpl. intros H. injection H as H1 H2. auto.
Qed.

Lemma ok_injective {A : Type} (a b : A) : Ok a = Ok b -> a = b.
Proof. intros H. injection H as H. exact H. Qed.

Lemma update_feed_ext (session : transport) (s t : ui) (items : list json)
  (text : string) :
  current_page s = current_page t ->
  current_strategy s = current_strategy t ->
  selected_index s = selected_index t ->
  terminal_width s = terminal_width t ->
  update_feed session s = Ok (with_feed items text s) ->
  update_feed session t = Ok (with_feed items text t).
Proof.
  intros E1 E2 E3 E4 H. unfold update_feed in *.
  rewrite <- E1, <- E2, <- E4.
  destruct (v <- get_contents session (current_page s) 10 (current_strategy s) ;;
            iterate v) as [its|e].
  - rewrite <- (feed_entries_ext s t its E3 E4).
    destruct (feed_entries s 0 its _) as [lines [e|]].
    + destruct (wrap_text (str_exn e) (terminal_width s - 4)) as [w|e'];
        [|discriminate H].
      simpl in H |- *. apply ok_injective in H.
      apply (with_feed_injective [] items _ text s) in H. destruct H as [<- <-].
      reflexivity.
    + apply ok_injective in H.
      apply (with_feed_injective its items _ text s) in H. destruct H as [<- <-].
      reflexivity.
  - destruct (wrap_text (str_exn e) (terminal_width s - 4)) as [w|e'];
      [|discriminate H].
    simpl in H |- *. apply ok_injective in H.
    apply (with_feed_injective [] items _ text s) in H. destruct H as [<- <-].
    reflexivity.
Qed.

(** X14.  Rendering the feed is idempotent: when [update_feed] has returned
    a state, calling it again on that state, the server answering as before,
    returns the same state. *)
Theorem update_feed_idempotent (session : transport) (s s1 : ui) :
  update_feed session s = Ok s1 -> update_feed session s1 = Ok s1.
Proof.
  intros H. destruct (update_feed_result _ _ _ H) as (items & text & Hs1 & _).
  fold (with_feed items text s) in Hs1. subst s1.
  exact (update_feed_ext session s (with_feed items text s) items text
           eq_refl eq_refl eq_refl eq_refl H).
Qed.

Lemma update_feed_idempotent_witness :
  update_feed (serve 200 two_items) feed_of_two = Ok feed_of_two.
Proof. apply (update_feed_idempotent (serve 200 two_items) init_ui), feed_of_two_run. Defined.

Lemma feed_entries_app (self : ui) (good rest : list json) :
  forall i lines lines',
    feed_entries self i good lines = (lines', None) ->
    feed_entries self i (good ++ rest) lines
    = feed_entries self (i + Z.of_nat (List.length good)) rest lines'.
Proof.
  induction good as [|c good IH]; intros i lines lines' H.
  - simpl in H. injection H as <-. simpl. rewrite Z.add_0_r. reflexivity.
  - cbn [feed_entries app] in H |- *.
    destruct (feed_entry self i c) as [entry|e]; [|discriminate H].
    rewrite (IH _ _ _ H). f_equal. simpl List.length. lia.
Qed.

(** X15.  One malformed entry blanks the list.  When the fetch returns a
    list in which the entries before some entry are listed without an
    exception and that entry raises (a missing [title] or [owner_username], a
    title that is not a string), [update_feed] sets the contents list to the
    empty list, although the feed buffer keeps the entries listed before it,
    followed by the error block; the entries after it are not listed. *)
Theorem update_feed_malformed_entry (session : transport) (s : ui)
  (good rest : list json) (bad : json) (lines : list string) (e : exn) :
  get_contents session (current_page s) 10 (current_strategy s)
  = Ok (JArr (good ++ bad :: rest)) ->
  feed_entries s 0 good (feed_header s) = (lines, None) ->
  feed_entry s (Z.of_nat (List.length good)) bad = Raise e ->
  4 < terminal_width s ->
  exists wrapped,
    wrap_text (str_exn e) (terminal_width s - 4) = Ok wrapped
    /\ update_feed session s
       = Ok (with_feed [] (join NL (lines ++ error_block_lines wrapped)) s).
Proof.
  intros Hget Hgood Hbad Hw.
  destruct (wrap_text_total (str_exn e) (terminal_width s - 4)) as [w Hwrap]; [lia|].
  exists w. split; [exact Hwrap|].
  unfold update_feed. rewrite Hget. cbn [bind iterate].
  fold (feed_header s). rewrite (feed_entries_app s good (bad :: rest) 0 _ _ Hgood).
  cbn [feed_entries]. rewrite Z.add_0_l, Hbad. cbv iota. rewrite Hwrap. reflexivity.
Qed.

Lemma update_feed_malformed_entry_witness :
  exists s',
    update_feed (serve 200 feed_with_bad_item) init_ui = Ok s'
    /\ contents s' = []
    /\ contains "First post" (feed_text s') = true
    /\ contains "'title'" (feed_text s') = true
    /\ contains "Third post" (feed_text s') = false.
Proof.
  destruct (update_feed_malformed_entry (serve 200 feed_with_bad_item) init_ui
              [feed_item "First post" "ann" "first-post"]
              [feed_item "Third post" "cid" "third-post"]
              (JObj [("owner_username", JStr "bob")])
              ["[page]Page 1[/page]"; ""; "→ First post"; "    by ann"; ""]
              (KeyError "title"))
    as (w & Hw & Hfeed); try (vm_compute; reflexivity).
  assert (Hw' : wrap_text (str_exn (KeyError "title")) (terminal_width init_ui - 4)
                = Ok "'title'") by (vm_compute; reflexivity).
  rewrite Hw' in Hw. injection Hw as <-.
  eexists. split; [exact Hfeed|].
  repeat split; vm_compute; reflexivity.
Defined.

(** ** Failed loads of an article and of its comments *)

(** X16.  When the fetch of [show_content] raises (the entry has no
    [owner_username] or no [slug], or the client raises), the view still
    switches to Content: the page list becomes the single error page (title
    line, wrapped error text, hint), shown as page 0 with the comments buffer
    empty, and the article held before stays the current article. *)
Theorem show_content_fetch_failure (session : transport) (content : json)
  (s : ui) (e : exn) :
  fetch_content session content = Raise e ->
  4 < terminal_width s ->
  exists wrapped,
    wrap_text (str_exn e) (terminal_width s - 4) = Ok wrapped
    /\ show_content session content s
       = Ok (set_comments_text ""
               (set_content_text (join NL (error_content_lines wrapped))
                  (set_content_pages [join NL (error_content_lines wrapped)]
                     (set_current_content_page 0 (set_view_mode Content s)))))
    /\ forall s', show_content session content s = Ok s' ->
                  current_content s' = current_content s.
Proof.
  intros Hfetch Hw.
  destruct (wrap_text_total (str_exn e) (terminal_width s - 4)) as [w Hwrap]; [lia|].
  exists w. split; [exact Hwrap|].
  assert (Hshow : show_content session content s
                  = Ok (set_comments_text ""
                          (set_content_text (join NL (error_content_lines w))
                             (set_content_pages [join NL (error_content_lines w)]
                                (set_current_content_page 0
                                   (set_view_mode Content s)))))).
  { unfold show_content. unfold fetch_content in Hfetch. rewrite Hfetch.
    cbv iota beta. cbn [terminal_width set_current_content_page set_view_mode].
    rewrite Hwrap. reflexivity. }
  split; [exact Hshow|].
  intros s' H. rewrite Hshow in H. injection H as <-. reflexivity.
Qed.

Lemma show_content_fetch_failure_witness :
  exists s',
    show_content (serve 200 article) item_without_slug feed_of_two = Ok s'
    /\ view_mode s' = Content
    /\ content_text s' = join NL (error_content_lines "'slug'").
Proof.
  destruct (show_content_fetch_failure (serve 200 article) item_without_slug
              feed_of_two (KeyError "slug"))
    as (w & Hw & Hshow & _); try (vm_compute; reflexivity).
  assert (Hw' : wrap_text (str_exn (KeyError "slug")) (terminal_width feed_of_two - 4)
                = Ok "'slug'") by (vm_compute; reflexivity).
  rewrite Hw' in Hw. injection Hw as <-.
  eexists. split; [exact Hshow|]. split; reflexivity.
Defined.

(** X17.  [show_comments] does nothing without an open article.  With one,
    it switches to the Comments view and empties the content buffer: the
    comments buffer receives the lines of the comments, joined (the empty text
    for an empty list of comments), or, when the fetch or a comment raises,
    the error block alone (title line, wrapped error text, hint). *)
Theorem show_comments_outcomes (session : transport) (s : ui) :
  4 < terminal_width s ->
  (truthy (current_content s) = false -> show_comments session s = Ok s)
  /\ (truthy (current_content s) = true ->
      (forall lines,
         fetch_comment_lines session s = Ok lines ->
         show_comments session s
         = Ok (set_content_text ""
                 (set_comments_text (join NL lines) (set_view_mode Comments s))))
      /\ (forall username slug,
            subscript (current_content s) "owner_username" = Ok username ->
            subscript (current_content s) "slug" = Ok slug ->
            get_comments session username slug = Ok (JArr []) ->
            show_comments session s
            = Ok (set_content_text ""
                    (set_comments_text "" (set_view_mode Comments s))))
      /\ (forall e,
            fetch_comment_lines session s = Raise e ->
            exists wrapped,
              wrap_text (str_exn e) (terminal_width s - 4) = Ok wrapped
              /\ show_comments session s
                 = Ok (set_content_text ""
                         (set_comments_text (join NL (error_comments_lines wrapped))
                            (set_view_mode Comments s))))).
Proof.
  intros Hw. split.
  - intros Hf. unfold show_comments. rewrite Hf. reflexivity.
  - intros Ht.
    assert (Hok : forall lines,
               fetch_comment_lines session s = Ok lines ->
               show_comments session s
               = Ok (set_content_text ""
                       (set_comments_text (join NL lines)
                          (set_view_mode Comments s)))).
    { intros lines H. unfold show_comments. rewrite Ht. cbn [negb]. cbv iota.
      unfold fetch_comment_lines in H. rewrite H. reflexivity. }
    split; [exact Hok|]. split.
    + intros u sl Hu Hs Hget. apply (Hok []).
      unfold fetch_comment_lines. rewrite Hu, Hs. cbn [bind]. rewrite Hget.
      reflexivity.
    + intros e H.
      destruct (wrap_text_total (str_exn e) (terminal_width s - 4)) as [w Hwrap];
        [lia|].
      exists w. split; [exact Hwrap|].
      unfold show_comments. rewrite Ht. cbn [negb]. cbv iota.
      unfold fetch_comment_lines in H. rewrite H. cbv beta iota. rewrite Hwrap.
      reflexivity.
Qed.

Lemma show_comments_outcomes_witness :
  show_comments (serve 200 (JArr [])) article_open
  = Ok (set_content_text "" (set_comments_text "" (set_view_mode Comments article_open))).
Proof.
  destruct (show_comments_outcomes (serve 200 (JArr [])) article_open)
    as [_ H]; [vm_compute; reflexivity|].
  destruct H as (_ & Hempty & _); [vm_compute; reflexivity|].
  apply (Hempty (JStr "ann") (JStr "first-post")); vm_compute; reflexivity.
Defined.

(** ** The selection index -1 *)

Lemma py_index_minus_one {A : Type} (front : list A) (x : A) :
  py_index (front ++ [x]) (-1) = Ok x.
Proof.
  unfold py_index. rewrite length_app. simpl List.length.
  change (-1 <? 0) with true. cbv iota.
  replace (-1 + Z.of_nat (List.length front + 1)) with (Z.of_nat (List.length front))
    by lia.
  destruct (0 <=? Z.of_nat (List.length front)) eqn:E1; [|apply Z.leb_gt in E1; lia].
  destruct (Z.of_nat (List.length front) <? Z.of_nat (List.length front + 1)) eqn:E2;
    [|apply Z.ltb_ge in E2; lia].
  simpl. rewrite Nat2Z.id, nth_error_app2, Nat.sub_diag by lia. reflexivity.
Qed.

(** X18.  [down] pressed while the feed list is empty leaves the selection
    index at -1, whatever the refetch returns; with the index at -1 and a list
    that is not empty, [enter] opens the last entry of the list (Python's
    negative index), not the first. *)
Theorem selection_index_minus_one (session : transport) (s : ui) :
  view_mode s = Feed ->
  (contents s = [] -> -1 <= selected_index s ->
   forall s', handle_key Down session s = Ok s' -> selected_index s' = -1)
  /\ (selected_index s = -1 ->
      forall front last_item,
        contents s = (front ++ [last_item])%list ->
        handle_key Enter session s = show_content session last_item s).
Proof.
  intros Hmode. split.
  - intros Hc Hidx s' H. unfold handle_key in H. rewrite Hmode, Hc in H.
    destruct (update_feed_result _ _ _ H) as (items & text & -> & _).
    simpl. lia.
  - intros Hidx front last_item Hc. unfold handle_key. rewrite Hmode, Hc, Hidx.
    rewrite py_index_minus_one.
    destruct (front ++ [last_item])%list eqn:E; [|reflexivity].
    destruct front; discriminate E.
Qed.

Lemma minus_one_selected_down :
  handle_key Down (serve 200 two_items) long_error_feed = Ok minus_one_selected.
Proof. vm_compute. reflexivity. Qed.

Lemma selection_index_minus_one_witness :
  selected_index minus_one_selected = -1
  /\ handle_key Enter (serve 200 article) minus_one_selected
     = show_content (serve 200 article)
         (feed_item "Second post" "bob" "second-post") minus_one_selected.
Proof.
  assert (Hm1 : view_mode long_error_feed = Feed) by (vm_compute; reflexivity).
  assert (Hm2 : view_mode minus_one_selected = Feed) by (vm_compute; reflexivity).
  assert (Hidx : selected_index minus_one_selected = -1).
  { apply (selection_index_minus_one (serve 200 two_items) long_error_feed Hm1);
      [vm_compute; reflexivity | vm_compute; discriminate
      | exact minus_one_selected_down]. }
  split; [exact Hidx|].
  apply (selection_index_minus_one (serve 200 article) minus_one_selected Hm2)
    with (front := [feed_item "First post" "ann" "first-post"]);
    [exact Hidx | vm_compute; reflexivity].
Defined.

(** ** Opening and scrolling an article *)

(** X19.  [enter] on a feed entry whose article is fetched and well formed (a
    string title, an owner, a date and a string body) switches to the Content
    view, keeps the fetched article as the current one, builds its pages (at
    least one) and shows the first of them, with the comments buffer empty. *)
Theorem show_content_success (session : transport) (content : json) (s : ui)
  (items : list (string * json)) (t b : string) (author date : json) :
  fetch_content session content = Ok (JObj items) ->
  assoc "title" items = Some (JStr t) ->
  assoc "owner_username" items = Some author ->
  assoc "created_at" items = Some date ->
  assoc "body" items = Some (JStr b) ->
  4 < terminal_width s -> 6 < terminal_height s ->
  exists first_page more_pages body_pages,
    split_into_pages b (terminal_width s - 4) (terminal_height s - 6) = Ok body_pages
    /\ List.length (first_page :: more_pages) = List.length body_pages
    /\ show_content session content s
       = Ok (set_comments_text ""
               (set_content_text first_page
                  (set_content_pages (first_page :: more_pages)
                     (set_current_content (JObj items)
                        (set_current_content_page 0 (set_view_mode Content s)))))).
Proof.
  intros Hfetch Ht Ha Hd Hb Hw Hh.
  destruct (prepare_content_pages_article
              (set_current_content (JObj items)
                 (set_current_content_page 0 (set_view_mode Content s)))
              items t b author date eq_refl Ht Ha Hd Hb Hw Hh)
    as (title & wrapped & body_pages & pages & _ & _ & Hsplit & Hprep & Hlen & _).
  destruct pages as [|first_page more_pages].
  { apply split_into_pages_nonempty in Hsplit. destruct body_pages; [congruence|].
    discriminate Hlen. }
  exists first_page, more_pages, body_pages.
  split; [exact Hsplit|]. split; [exact Hlen|].
  unfold show_content. unfold fetch_content in Hfetch. rewrite Hfetch. cbv beta iota.
  rewrite Hprep. reflexivity.
Qed.

Lemma show_content_success_witness :
  exists first_page more_pages,
    show_content (serve 200 article) (feed_item "First post" "ann" "first-post")
      feed_of_two
    = Ok (set_comments_text ""
            (set_content_text first_page
               (set_content_pages (first_page :: more_pages)
                  (set_current_content article
                     (set_current_content_page 0
                        (set_view_mode Content feed_of_two)))))).
Proof.
  destruct (show_content_success (serve 200 article)
              (feed_item "First post" "ann" "first-post") feed_of_two
              [("title", JStr "First post"); ("owner_username", JStr "ann");
               ("slug", JStr "first-post"); ("created_at", JStr "2024-01-01");
               ("body", JStr "Hello, world.")]
              "First post" "Hello, world." (JStr "ann") (JStr "2024-01-01"))
    as (first_page & more_pages & body_pages & _ & _ & H);
    try (vm_compute; reflexivity).
  exists first_page, more_pages. exact H.
Defined.

(** X20.  In the Content view, with a page list that is not empty and a valid
    page index, [down] shows the next page and stops at the last one, [up]
    shows the page before and stops at the first one; both empty the comments
    buffer, fetch nothing and change nothing else. *)
Theorem article_scrolling (session : transport) (s : ui) (k : key) :
  view_mode s = Content ->
  0 <= current_content_page s < Z.of_nat (List.length (content_pages s)) ->
  k = Up \/ k = Down ->
  let target :=
    match k with
    | Up => Z.max 0 (current_content_page s - 1)
    | _ => Z.min (Z.of_nat (List.length (content_pages s)) - 1)
             (current_content_page s + 1)
    end in
  0 <= target < Z.of_nat (List.length (content_pages s))
  /\ exists page,
       nth_error (content_pages s) (Z.to_nat target) = Some page
       /\ handle_key k session s
          = Ok (set_comments_text ""
                  (set_content_text page (set_current_content_page target s))).
Proof.
  intros Hmode Hidx Hk target.
  assert (Ht : 0 <= target < Z.of_nat (List.length (content_pages s))).
  { unfold target. destruct Hk as [-> | ->]; lia. }
  split; [exact Ht|].
  destruct (py_index_in_range _ _ Ht) as (page & Hpy & Hnth).
  exists page. split; [exact Hnth|].
  assert (Hview : update_content_view (set_current_content_page target s)
                  = Ok (set_comments_text ""
                          (set_content_text page (set_current_content_page target s)))).
  { unfold update_content_view. cbn [content_pages current_content_page
                                       set_current_content_page].
    destruct (content_pages s) as [|p l] eqn:E; [simpl in Ht; lia|].
    rewrite Hpy. reflexivity. }
  unfold handle_key. rewrite Hmode. unfold target in Hview.
  destruct Hk as [-> | ->]; exact Hview.
Qed.

Lemma article_scrolling_witness :
  exists page,
    nth_error (content_pages article_open) 0 = Some page
    /\ handle_key Down (serve 200 two_items) article_open
       = Ok (set_comments_text ""
               (set_content_text page (set_current_content_page 0 article_open))).
Proof.
  destruct (article_scrolling (serve 200 two_items) article_open Down)
    as (_ & page & Hnth & H);
    [vm_compute; reflexivity | vm_compute; split; [discriminate | reflexivity]
    | right; reflexivity |].
  exists page. split.
  - assert (E : Z.to_nat (Z.min (Z.of_nat (List.length (content_pages article_open)) - 1)
                            (current_content_page article_open + 1)) = 0%nat)
      by (vm_compute; reflexivity).
    rewrite E in Hnth. exact Hnth.
  - assert (E : Z.min (Z.of_nat (List.length (content_pages article_open)) - 1)
                  (current_content_page article_open + 1) = 0)
      by (vm_compute; reflexivity).
    rewrite E in H. exact H.
Defined.
